(** * milabench instruments: a shallow embedding and its properties

    The development follows [milabench/instruments.py].  Every instrument of
    that file is a coroutine that wires reactive pipelines onto the event bus
    of the overseer [ov]; what is modelled here is, for each instrument, the
    callbacks and generator bodies written in that file and the order in which
    the pipeline stages are chained.

    Conventions.
    - [time.time_ns()] readings are integers ([Z], nanoseconds).
    - Python floats that result from divisions of integers are modelled as
      exact rationals ([Q]); rounding is not modelled.
    - A Python call that may raise returns a [result].
    - A stream observed up to some point is the list of its items, oldest
      first. *)

From Stdlib Require Import ZArith QArith List String Bool Arith Lia.
Import ListNotations.

Local Open Scope Z_scope.

(** ** Python values, exceptions and results *)

Inductive exn : Type :=
| TypeError
| IndexError
| ZeroDivisionError
| NotImplementedError (msg : string).

Inductive result (A : Type) : Type :=
| Ok (a : A)
| Raise (e : exn).

Arguments Ok {A} a.
Arguments Raise {A} e.

Definition bind {A B : Type} (r : result A) (k : A -> result B) : result B :=
  match r with
  | Ok a => k a
  | Raise e => Raise e
  end.

Notation "x <- r ;; k" := (bind r (fun x => k))
  (at level 61, r at next level, right associativity).

(** The host values that reach the instruments: [None], lists, tuples,
    objects that answer [len()] (tensors, arrays) and objects that do not. *)
#[warnings="-register-all"]
Inductive pyval : Type :=
| PyNone
| PyList (items : list pyval)
| PyTuple (items : list pyval)
| PySized (n : nat)
| PyOpaque.

(** [len(v)]. *)
Definition py_len (v : pyval) : result Z :=
  match v with
  | PyList items => Ok (Z.of_nat (List.length items))
  | PyTuple items => Ok (Z.of_nat (List.length items))
  | PySized n => Ok (Z.of_nat n)
  | PyNone => Raise TypeError
  | PyOpaque => Raise TypeError
  end.

(** [v[0]]. *)
Definition py_getitem0 (v : pyval) : result pyval :=
  match v with
  | PyList (x :: _) => Ok x
  | PyTuple (x :: _) => Ok x
  | PyList [] => Raise IndexError
  | PyTuple [] => Raise IndexError
  | _ => Raise TypeError
  end.

(** [isinstance(v, list)] and [isinstance(v, (list, tuple))]. *)
Definition is_list (v : pyval) : bool :=
  match v with PyList _ => true | _ => false end.

Definition is_list_or_tuple (v : pyval) : bool :=
  match v with PyList _ | PyTuple _ => true | _ => false end.

(** A keyword dictionary such as the data of a bus event. *)
Definition pydict : Type := list (string * pyval).

Fixpoint dict_get (k : string) (d : pydict) : option pyval :=
  match d with
  | [] => None
  | (k', v) :: d' => if String.eqb k k' then Some v else dict_get k d'
  end.

(** [sum(xs)] over integers: a left fold that starts from [0]. *)
Definition py_sum (xs : list Z) : Z := fold_left Z.add xs 0.

(** Truth value of a number in an [if]. *)
Definition truthy_Z (n : Z) : bool := negb (n =? 0).
Definition truthy_Q (q : Q) : bool := negb (Qeq_bool q 0).

(** [x / 1_000_000_000]: nanoseconds to seconds. *)
Definition ns_per_second : Z := 1000000000.
Definition seconds_of_ns (t : Z) : Q := (inject_Z t / inject_Z ns_per_second)%Q.

(** [n / seconds] on a float divisor: raises on a zero divisor. *)
Definition py_truediv (n : Z) (seconds : Q) : result Q :=
  if Qeq_bool seconds 0 then Raise ZeroDivisionError
  else Ok (inject_Z n / seconds)%Q.

(** ** Stream operators used by the instruments

    These come from the reactive library the instruments are written
    against; each is given here on the list of items seen so far. *)

(** [pairwise()]: every item with its predecessor. *)
Fixpoint pairwise {A : Type} (xs : list A) : list (A * A) :=
  match xs with
  | x :: ((y :: _) as tl) => (x, y) :: pairwise tl
  | _ => []
  end.

(** [skip(count)]: drops the first [count] items, forwards the rest. *)
Definition skip {A : Type} (count : nat) (xs : list A) : list A := skipn count xs.

(** [first()] and [last()] as the item they emit on a stream that had one;
    on a stream without items they emit nothing (they end with an error,
    which is not followed here). *)
Definition rx_first {A : Type} (xs : list A) : list A := firstn 1 xs.

Definition rx_last {A : Type} (xs : list A) : list A :=
  match xs with
  | [] => []
  | x :: tl => [last tl x]
  end.

(** [average(scan=n)]: after each item, the mean of the latest [n] items
    (of all of them while fewer than [n] were seen). *)
Definition q_sum (xs : list Q) : Q := fold_left Qplus xs (0%Q).

Definition mean (xs : list Q) : Q := (q_sum xs / inject_Z (Z.of_nat (List.length xs)))%Q.

Definition latest {A : Type} (n : nat) (xs : list A) : list A :=
  skipn (List.length xs - n) xs.

Fixpoint average_scan_from (n : nat) (seen : list Q) (xs : list Q) : list Q :=
  match xs with
  | [] => []
  | x :: tl =>
      let seen' := latest n (seen ++ [x]) in
      mean seen' :: average_scan_from n seen' tl
  end.

Definition average_scan (n : nat) (xs : list Q) : list Q := average_scan_from n [] xs.

(** [throttle(duration)]: an item passes when none passed before or when at
    least [duration] elapsed since the last one that passed; the others are
    dropped.  Items carry their arrival time in nanoseconds. *)
Fixpoint throttle_from {A : Type} (duration : Z) (last_pass : option Z)
    (xs : list (Z * A)) : list (Z * A) :=
  match xs with
  | [] => []
  | (now, x) :: tl =>
      match last_pass with
      | Some t0 =>
          if duration <=? now - t0
          then (now, x) :: throttle_from duration (Some now) tl
          else throttle_from duration last_pass tl
      | None => (now, x) :: throttle_from duration (Some now) tl
      end
  end.

Definition throttle {A : Type} (duration : Z) (xs : list (Z * A)) : list (Z * A) :=
  throttle_from duration None xs.

(** ** train_rate *)

(** One item of [times] before [pairwise()]: the fields kept by
    [keep("time", "batch_size")]. *)
Record sample : Type := { time : Z; batch_size : Z }.

(** [kmap(batch_size=len(batch))] then [augment(time=time.time_ns())] on one
    [step] event carrying [batch], observed at clock reading [now]. *)
Definition sample_of_step (now : Z) (batch : pyval) : result sample :=
  n <- py_len batch ;; Ok {| time := now; batch_size := n |}.

(** The subscriber of [times], called with the pairs of one time window.
    [sync] is [None] when no CUDA synchronisation was installed by
    [setsync]; otherwise it holds the two clock readings [t0], [t1] taken
    around the call of [sync()].  The result is the rate given on the bus,
    or [None] when nothing is given. *)
Definition train_rate_callback (sync : option (Z * Z))
    (elems : list (sample * sample)) : option Q :=
  let t := 0 in
  let t := match sync with
           | Some (t0, t1) => t + (t1 - t0)
           | None => t
           end in
  let t := t + py_sum (map (fun '(e1, e2) => time e2 - time e1) elems) in
  let n := py_sum (map (fun '(e1, _) => batch_size e1) elems) in
  let t := seconds_of_ns t in
  if truthy_Z n && truthy_Q t
  then Some (inject_Z n / t)%Q
  else None.

(** The window's pairs when the samples [xs] are the ones it spans. *)
Definition train_rate_window (sync : option (Z * Z)) (xs : list sample) : option Q :=
  train_rate_callback sync (pairwise xs).

(** The quantities the rate is described with: total size of the first
    elements of the pairs, total of the time differences of the pairs, and
    the cost of the synchronisation call. *)
Definition total_size (elems : list (sample * sample)) : Z :=
  fold_right (fun p acc => batch_size (fst p) + acc) 0 elems.

Definition total_delta (elems : list (sample * sample)) : Z :=
  fold_right (fun p acc => (time (snd p) - time (fst p)) + acc) 0 elems.

Definition sync_cost (sync : option (Z * Z)) : Z :=
  match sync with
  | Some (t0, t1) => t1 - t0
  | None => 0
  end.

(** ** stop *)

(** What the instrument makes visible: the progress events it gives and the
    calls of [ov.stop]. *)
Inductive stop_output : Type :=
| Progress (idx : nat) (total : nat)
| StopSignal (value : Q).

(** The closure state: [called] of [stop], the counter of [skip] and the
    index of [map_indexed]. *)
Record stop_state : Type := {
  called : bool;
  remaining : nat;
  index : nat;
  emitted : list stop_output
}.

Definition stop_init (n : nat) : stop_state :=
  {| called := false; remaining := n; index := 0; emitted := [] |}.

Definition option_bind {A B : Type} (o : option A) (k : A -> option B) : option B :=
  match o with
  | Some a => k a
  | None => None
  end.

(** Delivery of one [train_rate] event to the two pipelines built on
    [steps], for a parameter [total] that is not zero.  [ov.stop(value)]
    makes the host give further [train_rate] events before it returns (the
    code's comment); [react value] lists them, and they are delivered
    nested, which is what the fuel bounds. *)
Fixpoint deliver (react : Q -> list Q) (total : nat) (fuel : nat)
    (st : stop_state) (value : Q) : option stop_state :=
  match fuel with
  | O => None
  | S fuel' =>
      (* steps.map_indexed(...).give() *)
      let st := {| called := called st;
                   remaining := remaining st;
                   index := S (index st);
                   emitted := emitted st ++ [Progress (index st) total] |} in
      (* steps.skip(stop) >> _stop *)
      match remaining st with
      | S r =>
          Some {| called := called st; remaining := r;
                  index := index st; emitted := emitted st |}
      | O =>
          if called st then Some st
          else
            let st := {| called := true; remaining := remaining st;
                         index := index st;
                         emitted := emitted st ++ [StopSignal value] |} in
            fold_left
              (fun acc v => option_bind acc (fun s => deliver react total fuel' s v))
              (react value) (Some st)
      end
  end.

(** The instrument over the [train_rate] events [values] of a run, with the
    parameter [stop_option]: nothing is subscribed when it is zero. *)
Definition stop (react : Q -> list Q) (stop_option : nat) (fuel : nat)
    (values : list Q) : option stop_state :=
  match stop_option with
  | O => Some (stop_init 0)
  | S _ =>
      fold_left
        (fun acc v => option_bind acc (fun s => deliver react stop_option fuel s v))
        values (Some (stop_init stop_option))
  end.

Definition stop_signals (st : stop_state) : list Q :=
  flat_map (fun o => match o with StopSignal v => [v] | Progress _ _ => [] end)
           (emitted st).

(** ** loading_rate and compute_rate *)

(** One measured span: the clock readings taken by [_timing] before and
    after its [yield], and the data it is resumed with at exit. *)
Record span : Type := { t_enter : Z; t_exit : Z; exit_data : pydict }.

(** [_timing] of [loading_rate]. *)
Definition loading_timing (s : span) : result (option Q) :=
  let t0 := t_enter s in
  let results := exit_data s in
  let t1 := t_exit s in
  match dict_get "batch" results with
  | Some data =>
      let seconds := seconds_of_ns (t1 - t0) in
      data <- (if is_list_or_tuple data then py_getitem0 data else Ok data) ;;
      n <- py_len data ;;
      rate <- py_truediv n seconds ;;
      Ok (Some rate)
  | None => Ok None
  end.

(** [_timing] of [compute_rate]. *)
Definition compute_timing (s : span) : result (option Q) :=
  let t0 := t_enter s in
  let results := exit_data s in
  let t1 := t_exit s in
  match dict_get "batch" results with
  | Some data =>
      let seconds := seconds_of_ns (t1 - t0) in
      data <- (if is_list data then py_getitem0 data else Ok data) ;;
      n <- py_len data ;;
      rate <- py_truediv n seconds ;;
      Ok (Some rate)
  | None => Ok None
  end.

(** A stream followed up to the first exception raised while one of its
    items is processed: the items delivered before it, and the exception. *)
Definition stream (A : Type) : Type := (list A * option exn)%type.

(** [wmap(_timing)]: one item per span, the value returned by the
    generator, stamped with the time of the exit. *)
Fixpoint wmap (timing : span -> result (option Q)) (spans : list span)
    : stream (Z * option Q) :=
  match spans with
  | [] => ([], None)
  | s :: tl =>
      match timing s with
      | Ok v => let (items, err) := wmap timing tl in ((t_exit s, v) :: items, err)
      | Raise e => ([], Some e)
      end
  end.

(** [filter(lambda xs: xs is not None)]. *)
Fixpoint not_none (items : list (Z * option Q)) : list (Z * Q) :=
  match items with
  | [] => []
  | (t, Some q) :: tl => (t, q) :: not_none tl
  | (_, None) :: tl => not_none tl
  end.

Definition filter_not_none (s : stream (Z * option Q)) : stream (Z * Q) :=
  (not_none (fst s), snd s).

(** The averaging stage adds every item it receives to a running sum: an
    item that is [None] cannot be added, and the addition raises. *)
Fixpoint numbers (items : list (Z * option Q)) (err : option exn) : stream (Z * Q) :=
  match items with
  | [] => ([], err)
  | (t, Some q) :: tl => let (rest, e) := numbers tl err in ((t, q) :: rest, e)
  | (_, None) :: _ => ([], Some TypeError)
  end.

(** [average(scan=5)] then [throttle(1)] on stamped numbers. *)
Definition smooth (items : list (Z * Q)) : list (Z * Q) :=
  throttle (1 * ns_per_second)
           (combine (map fst items) (average_scan 5 (map snd items))).

(** The pipeline of [loading_rate] on the spans of an installed probe:
    [wmap], [filter], [average], [throttle], then [give]. *)
Definition loading_rate_pipeline (spans : list span) : stream (Z * Q) :=
  let (items, err) := filter_not_none (wmap loading_timing spans) in
  (smooth items, err).

(** The pipeline of [compute_rate]: [wmap], [average], [throttle], then
    [give]. *)
Definition compute_rate_pipeline (spans : list span) : stream (Z * Q) :=
  let (items, err) := wmap compute_timing spans in
  let (items, err) := numbers items err in
  (smooth items, err).

(** What [loading_rate] looks at in a loader: whether its [__iter__] is a
    generator function, and the type of [iter(loader)] ([None] when the
    loader is not iterable), of which only the name and the presence of a
    [next] attribute matter. *)
Record iterator_type : Type := { type_repr : string; has_next : bool }.

Record loader : Type := {
  iter_is_generator_function : bool;
  type_of_iter : option iterator_type
}.

(** The selector handed to [ov.probe]. *)
Inductive probe : Type :=
| ProbeYield  (* func(!$x:@enter, #yield as batch, !!$y:@exit) *)
| ProbeValue. (* func(!$x:@enter, #value as batch, !!$y:@exit) *)

(** Outcome of the [loader] subscriber: lines written to [sys.stderr] and
    the probe the pipeline was attached to, if any. *)
Record subscription : Type := { stderr : list string; installed : option probe }.

Definition loading_rate_subscribe (l : loader) : result subscription :=
  if iter_is_generator_function l
  then Ok {| stderr := []; installed := Some ProbeYield |}
  else
    match type_of_iter l with
    | None => Raise TypeError
    | Some typ =>
        if has_next typ
        then Ok {| stderr := []; installed := Some ProbeValue |}
        else Ok {| stderr := [("Error: cannot instrument loader of type "
                               ++ type_repr typ)%string];
                   installed := None |}
    end.

(** What the instrument gives for a loader whose iterations are [spans]. *)
Definition loading_rate (l : loader) (spans : list span) : stream (Z * Q) :=
  match loading_rate_subscribe l with
  | Ok sub =>
      match installed sub with
      | Some _ => loading_rate_pipeline spans
      | None => ([], None)
      end
  | Raise e => ([], Some e)
  end.

(** ** GPUMonitor and profile_gpu *)

(** A reading of [GPUtil.getGPUs()]: one entry per device. *)
Definition gpudata : Type := list nat.

Inductive poll_result : Type :=
| Gpus (d : gpudata)
| PollRaises.

(** The environment of the monitor thread: the outcome of the [k]-th call of
    [GPUtil.getGPUs()] and the time that call takes, in nanoseconds. *)
Record world : Type := {
  telemetry : nat -> poll_result;
  poll_ns : nat -> N
}.

(** Where the thread stands in [run]. *)
Inductive location : Type :=
| AtCheck   (* about to evaluate [not self.stopped] *)
| AtPoll    (* about to call [getGPUs] and give the result *)
| AtSleep   (* about to call [time.sleep(self.delay)] *)
| Exited    (* [run] returned *)
| Died.     (* [run] was left by an exception *)

(** What an observer of the bus and of the main thread sees, in order. *)
Inductive trace_event : Type :=
| Published (at_ns : Z) (d : gpudata)
| StopReturned.

Record monitor : Type := {
  stopped : bool;
  delay : Z;
  loc : location;
  polls : nat;
  clock : Z;
  trace : list trace_event
}.

(** [GPUMonitor(ov, delay)] followed by [start()]. *)
Definition GPUMonitor (delay : Z) : monitor :=
  {| stopped := false; delay := delay; loc := AtCheck;
     polls := 0; clock := 0; trace := [] |}.

(** [time.sleep(secs)] moves the clock by [secs] seconds. *)
Definition time_sleep (secs : Z) (now : Z) : Z := now + secs * ns_per_second.

(** One step of the thread running [run]. *)
Definition run_step (w : world) (m : monitor) : monitor :=
  match loc m with
  | AtCheck =>
      {| stopped := stopped m; delay := delay m;
         loc := if stopped m then Exited else AtPoll;
         polls := polls m; clock := clock m; trace := trace m |}
  | AtPoll =>
      let now := clock m + Z.of_N (poll_ns w (polls m)) in
      match telemetry w (polls m) with
      | Gpus d =>
          {| stopped := stopped m; delay := delay m; loc := AtSleep;
             polls := S (polls m); clock := now;
             trace := trace m ++ [Published now d] |}
      | PollRaises =>
          {| stopped := stopped m; delay := delay m; loc := Died;
             polls := S (polls m); clock := now; trace := trace m |}
      end
  | AtSleep =>
      {| stopped := stopped m; delay := delay m; loc := AtCheck;
         polls := polls m; clock := time_sleep (delay m) (clock m);
         trace := trace m |}
  | Exited => m
  | Died => m
  end.

(** [stop()], called from the main thread. *)
Definition monitor_stop (m : monitor) : monitor :=
  {| stopped := true; delay := delay m; loc := loc m;
     polls := polls m; clock := clock m;
     trace := trace m ++ [StopReturned] |}.

(** An interleaving of the two threads. *)
Inductive action : Type :=
| Tick      (* the monitor thread takes a step *)
| CallStop. (* the main thread calls [stop()] *)

Definition act (w : world) (m : monitor) (a : action) : monitor :=
  match a with
  | Tick => run_step w m
  | CallStop => monitor_stop m
  end.

Definition execute (w : world) (schedule : list action) (m : monitor) : monitor :=
  fold_left (act w) schedule m.

(** [profile_gpu]: the monitor is created with delay [100] and started at
    [load_script]; [stop()] is called after [run_script]. *)
Definition profile_gpu_delay : Z := 100.

Definition profile_gpu (w : world) (schedule : list action) : monitor :=
  execute w schedule (GPUMonitor profile_gpu_delay).

Definition published (m : monitor) : list (Z * gpudata) :=
  flat_map (fun e => match e with
                     | Published t d => [(t, d)]
                     | StopReturned => []
                     end) (trace m).

(** The samples published after the first return of [stop()]. *)
Fixpoint published_after_stop (tr : list trace_event) : list (Z * gpudata) :=
  match tr with
  | [] => []
  | StopReturned :: tl =>
      flat_map (fun e => match e with
                         | Published t d => [(t, d)]
                         | StopReturned => []
                         end) tl
  | Published _ _ :: tl => published_after_stop tl
  end.

(** ** verify *)

(** [x < y] on losses. *)
Definition Qltb (x y : Q) : bool := negb (Qle_bool y x).

(** The two checks on the [loss] channel, as the named values sent. *)
Definition verify_losses (losses : list Q) : list (string * bool) :=
  let first_loss := rx_first losses in
  let last_loss := rx_last losses in
  map (fun '(fl, ll) => ("verify.loss_decreases"%string, Qltb ll fl))
      (pairwise (first_loss ++ last_loss))
  ++ map (fun x => ("verify.loss_below_threshold"%string, Qltb x 1)) last_loss.

(** ** profile *)

Inductive profile_method : Type :=
| profile_with_torch_profiler
| profile_with_deepspeed.

(** How the body of [profile] leaves its first segment: it returns, or it
    goes on to wrap [compute_start] with a profiler. *)
Inductive profile_start : Type :=
| ProfileInactive
| ProfileWith (m : profile_method).

(** The declared default of [--profile]. *)
Definition profile_default : string := "".

(** [ov.options.profile] for an optional command-line value. *)
Definition options_profile (arg : option string) : option string :=
  match arg with
  | Some s => Some s
  | None => Some profile_default
  end.

Definition profile (profile_name : option string) : result profile_start :=
  match profile_name with
  | None => Ok ProfileInactive
  | Some name =>
      if String.eqb name "torch" then Ok (ProfileWith profile_with_torch_profiler)
      else if String.eqb name "deepspeed" then Ok (ProfileWith profile_with_deepspeed)
      else Raise (NotImplementedError ("Unknown profiler: " ++ name)%string)
  end.

(** Whether [stop()] has returned somewhere in a trace. *)
Definition stop_seen (tr : list trace_event) : bool :=
  existsb (fun e => match e with StopReturned => true | Published _ _ => false end) tr.

(** Whether the exit data of a span has a [batch] entry. *)
Definition has_batch (s : span) : bool :=
  match dict_get "batch" (exit_data s) with
  | Some _ => true
  | None => false
  end.

(** Successive instants of a list are at least [d] nanoseconds apart. *)
Definition gaps_at_least (d : Z) (instants : list Z) : Prop :=
  Forall (fun p => snd p - fst p >= d) (pairwise instants).

(** The progress events among what [stop] made visible. *)
Definition stop_progress (st : stop_state) : list (nat * nat) :=
  flat_map (fun o => match o with Progress i t => [(i, t)] | StopSignal _ => [] end)
           (emitted st).

(** The readings of the telemetry calls [0 .. n-1] that returned. *)
Definition readings (w : world) (n : nat) : list gpudata :=
  flat_map (fun j => match telemetry w j with Gpus d => [d] | PollRaises => [] end)
           (seq 0 n).

(** ** dash *)

(** A keyword dictionary with values of any kind, in insertion order. *)
Fixpoint assoc {V : Type} (k : string) (d : list (string * V)) : option V :=
  match d with
  | [] => None
  | (k', v) :: d' => if String.eqb k k' then Some v else assoc k d'
  end.

(** The object bound to [k] replaced; the key is expected to be bound. *)
Fixpoint assoc_set {V : Type} (k : string) (v : V) (d : list (string * V))
    : list (string * V) :=
  match d with
  | [] => []
  | (k', v') :: d' =>
      if String.eqb k k' then (k', v) :: d' else (k', v') :: assoc_set k v d'
  end.

(** [k.startswith("$") or k.startswith("#") or k == "units"]. *)
Definition reserved (k : string) : bool :=
  String.prefix "$" k || String.prefix "#" k || String.eqb k "units".

Section Dash.

(** The values given on the bus, with [str(v)] and the truth value of [v]. *)
Variable value : Type.
Variable str : value -> string.
Variable truthy : value -> bool.

(** What a row of the table shows.  A progress bar is known by the calls of
    [update(total=.., completed=..)] it received (and by an [_object]
    attribute if one was set on it); a [Plain] by its object and format. *)
Inductive row : Type :=
| ProgressBar (updates : list (value * value)) (stray : option value)
| Plain (object : value) (fmt : string).

(** The dictionary [rows] and the rows of [table] in the order they were
    added; the table holds the very objects [rows] holds, so it is kept as
    the list of their keys. *)
Record dash_state : Type := {
  rows : list (string * row);
  table : list string
}.

Definition dash_init : dash_state := {| rows := []; table := [] |}.

Inductive dash_exn : Type :=
| AttributeError
| KeyError.

Inductive dash_result : Type :=
| Updated (st : dash_state)
| Raised (e : dash_exn).

(** [f"\\[{k}]"]. *)
Definition progress_key (descr : value) : string :=
  ("\[" ++ str descr ++ "]")%string.

(** [rows[k]._object = v]. *)
Definition set_object (v : value) (r : row) : row :=
  match r with
  | Plain _ fmt => Plain v fmt
  | ProgressBar updates _ => ProgressBar updates (Some v)
  end.

(** The branch of [update_with] taken when [total], [progress] and [descr]
    are all keys of [values]. *)
Definition update_progress (st : dash_state) (total progress descr : value)
    : dash_result :=
  let k := progress_key descr in
  let st :=
    match assoc k (rows st) with
    | None =>
        (* progress_bar = ProgressBar(...); table.add_row(k, progress_bar);
           rows[k] = progress_bar *)
        {| rows := rows st ++ [(k, ProgressBar [] None)];
           table := table st ++ [k] |}
    | Some _ => st
    end in
  (* progress_bar = rows[k]; progress_bar.update(total=.., completed=..) *)
  match assoc k (rows st) with
  | Some (ProgressBar updates stray) =>
      Updated {| rows := assoc_set k (ProgressBar (updates ++ [(total, progress)]) stray)
                                   (rows st);
                 table := table st |}
  | Some (Plain _ _) => Raised AttributeError
  | None => Raised KeyError
  end.

(** One turn of the loop over [values.items()]. *)
Definition show_item (units : option value) (st : dash_state)
    (item : string * value) : dash_state :=
  let (k, v) := item in
  if reserved k then st
  else
    match assoc k (rows st) with
    | Some r =>
        {| rows := assoc_set k (set_object v r) (rows st); table := table st |}
    | None =>
        let r := match units with
                 | Some u =>
                     if truthy u then Plain v ("{} " ++ str u)%string
                     else Plain v "{}"
                 | None => Plain v "{}"
                 end in
        {| rows := rows st ++ [(k, r)]; table := table st ++ [k] |}
    end.

Definition update_with (st : dash_state) (values : list (string * value))
    : dash_result :=
  match assoc "total" values, assoc "progress" values, assoc "descr" values with
  | Some total, Some progress, Some descr =>
      update_progress st total progress descr
  | _, _, _ =>
      let units := assoc "units" values in
      Updated (fold_left (show_item units) values st)
  end.

(** What reaches [update_with]: the events given on the bus that have no
    [silent] key ([gv.where("!silent")]), and everything passed to
    [ov.send]. *)
Inductive dash_event : Type :=
| Given (values : list (string * value))
| Sent (values : list (string * value)).

Definition dash_step (st : dash_state) (e : dash_event) : dash_result :=
  match e with
  | Given values =>
      match assoc "silent" values with
      | Some _ => Updated st
      | None => update_with st values
      end
  | Sent values => update_with st values
  end.

Fixpoint dash_run (events : list dash_event) (st : dash_state) : dash_result :=
  match events with
  | [] => Updated st
  | e :: tl =>
      match dash_step st e with
      | Updated st' => dash_run tl st'
      | Raised x => Raised x
      end
  end.

(** The table has one row per key of [rows], in the order of insertion, and
    no reserved key among them. *)
Definition table_consistent (st : dash_state) : Prop :=
  table st = map fst (rows st)
  /\ NoDup (map fst (rows st))
  /\ Forall (fun k => reserved k = false) (map fst (rows st)).

(** Progress bars sit under keys made by [progress_key] only, which start
    with a backslash and a bracket. *)
Definition bars_under_progress_keys (st : dash_state) : Prop :=
  forall k updates stray,
    assoc k (rows st) = Some (ProgressBar updates stray) ->
    String.prefix "\[" k = true.

End Dash.

Arguments ProgressBar {value} updates stray.
Arguments Plain {value} object fmt.
Arguments rows {value} d.
Arguments table {value} d.
Arguments dash_init {value}.
Arguments Updated {value} st.
Arguments Raised {value} e.
Arguments Given {value} values.
Arguments Sent {value} values.
Arguments set_object {value} v r.
Arguments table_consistent {value} st.
Arguments bars_under_progress_keys {value} st.

(** * Properties *)

(** ** Arithmetic helpers *)

Lemma fold_left_add_acc (xs : list Z) (a : Z) :
  fold_left Z.add xs a = a + fold_left Z.add xs 0.
Proof.
  revert a; induction xs as [|x xs IH]; intros a; simpl.
  - lia.
  - rewrite IH, (IH x). lia.
Qed.

Lemma py_sum_cons (x : Z) (xs : list Z) : py_sum (x :: xs) = x + py_sum xs.
Proof. unfold py_sum; simpl. apply fold_left_add_acc. Qed.

Lemma py_sum_sizes (elems : list (sample * sample)) :
  py_sum (map (fun '(e1, _) => batch_size e1) elems) = total_size elems.
Proof.
  induction elems as [|[e1 e2] tl IH]; [reflexivity|].
  cbn [map total_size fold_right fst]. rewrite py_sum_cons, IH. reflexivity.
Qed.

Lemma py_sum_deltas (elems : list (sample * sample)) :
  py_sum (map (fun '(e1, e2) => time e2 - time e1) elems) = total_delta elems.
Proof.
  induction elems as [|[e1 e2] tl IH]; [reflexivity|].
  cbn [map total_delta fold_right fst snd]. rewrite py_sum_cons, IH. reflexivity.
Qed.

Lemma seconds_of_ns_zero (t : Z) : Qeq_bool (seconds_of_ns t) 0 = (t =? 0).
Proof.
  destruct (Z.eqb_spec t 0) as [->|Hne].
  - reflexivity.
  - apply not_true_is_false. intros H. apply Qeq_bool_iff in H.
    unfold seconds_of_ns, ns_per_second, Qeq in H. simpl in H. lia.
Qed.

Lemma truthy_seconds (t : Z) : truthy_Q (seconds_of_ns t) = truthy_Z t.
Proof. unfold truthy_Q, truthy_Z. now rewrite seconds_of_ns_zero. Qed.

Lemma seconds_of_ns_nonzero (t : Z) : t <> 0 -> ~ (seconds_of_ns t == 0)%Q.
Proof.
  intros Hne H. apply Qeq_bool_iff in H. rewrite seconds_of_ns_zero in H.
  apply Z.eqb_eq in H. contradiction.
Qed.

Lemma Qdiv_same_divisor_neq (a b : Z) (s : Q) :
  ~ (s == 0)%Q -> a <> b -> ~ (inject_Z a / s == inject_Z b / s)%Q.
Proof.
  intros Hs Hab H. apply Hab.
  assert (E : (inject_Z a == inject_Z b)%Q).
  { rewrite <- (Qmult_div_r (inject_Z a) s Hs), <- (Qmult_div_r (inject_Z b) s Hs).
    rewrite H. reflexivity. }
  unfold Qeq in E. simpl in E. lia.
Qed.

(** ** train_rate *)

Lemma last_cons_default {A : Type} (y : A) (ys : list A) (x : A) :
  last (y :: ys) x = last ys y.
Proof.
  revert x y; induction ys as [|z zs IH]; intros x y; [reflexivity|].
  change (last (y :: z :: zs) x) with (last (z :: zs) x).
  rewrite (IH x z), (IH y z). reflexivity.
Qed.

Lemma total_delta_pairwise (x : sample) (xs : list sample) :
  total_delta (pairwise (x :: xs)) = time (last xs x) - time x.
Proof.
  revert x; induction xs as [|y ys IH]; intros x.
  - simpl. lia.
  - change (pairwise (x :: y :: ys)) with ((x, y) :: pairwise (y :: ys)).
    cbn [total_delta fold_right fst snd].
    fold (total_delta (pairwise (y :: ys))). rewrite IH, last_cons_default.
    lia.
Qed.

Lemma total_size_pairwise (x : sample) (xs : list sample) :
  total_size (pairwise (x :: xs))
  = fold_right Z.add 0 (map batch_size (removelast (x :: xs))).
Proof.
  revert x; induction xs as [|y ys IH]; intros x.
  - reflexivity.
  - change (pairwise (x :: y :: ys)) with ((x, y) :: pairwise (y :: ys)).
    cbn [total_size fold_right fst].
    fold (total_size (pairwise (y :: ys))). rewrite IH. reflexivity.
Qed.

(** A contiguous run of the pairs of a stream is the pairs of a contiguous
    run of the stream: what a time window holds. *)
Lemma pairwise_skipn {A : Type} (k : nat) (xs : list A) :
  skipn k (pairwise xs) = pairwise (skipn k xs).
Proof.
  revert xs; induction k as [|k IH]; intros xs; [reflexivity|].
  destruct xs as [|x [|y ys]]; try reflexivity.
  - simpl. now destruct k.
  - change (pairwise (x :: y :: ys)) with ((x, y) :: pairwise (y :: ys)).
    cbn [skipn]. apply IH.
Qed.

Lemma pairwise_firstn {A : Type} (k : nat) (xs : list A) :
  firstn k (pairwise xs) = pairwise (firstn (S k) xs).
Proof.
  revert xs; induction k as [|k IH]; intros xs.
  - destruct xs as [|x [|y ys]]; reflexivity.
  - destruct xs as [|x [|y ys]]; try reflexivity.
    change (pairwise (x :: y :: ys)) with ((x, y) :: pairwise (y :: ys)).
    cbn [firstn]. rewrite IH. reflexivity.
Qed.

(** The two sums of the callback are the totals over the pairs, and the
    truth test on the seconds is the truth test on the nanoseconds. *)
Ltac callback_sums :=
  unfold train_rate_callback;
  rewrite py_sum_sizes, py_sum_deltas, truthy_seconds;
  unfold truthy_Z.

(** C1 (as amended): the rate given for a window is the total size of the
    first elements of its pairs divided by the elapsed time in seconds, where
    the elapsed time is the total of the pairs' time differences plus the
    duration of the synchronisation call when one is installed; nothing is
    given when the total size or that elapsed time is zero. *)
Theorem train_rate_window_rate (sync : option (Z * Z)) (elems : list (sample * sample)) :
  train_rate_callback sync elems =
  if (total_size elems =? 0) || (sync_cost sync + total_delta elems =? 0)
  then None
  else Some (inject_Z (total_size elems)
             / seconds_of_ns (sync_cost sync + total_delta elems))%Q.
Proof.
  callback_sums.
  assert (E : match sync with
              | Some (t0, t1) => 0 + (t1 - t0)
              | None => 0
              end = sync_cost sync).
  { destruct sync as [[t0 t1]|]; simpl; lia. }
  rewrite E.
  destruct (total_size elems =? 0); simpl; [reflexivity|].
  destruct (sync_cost sync + total_delta elems =? 0); reflexivity.
Qed.

(** Without a synchronisation hook the elapsed time is the total of the
    time differences alone. *)
Lemma train_rate_without_sync (elems : list (sample * sample)) :
  train_rate_callback None elems =
  if (total_size elems =? 0) || (total_delta elems =? 0)
  then None
  else Some (inject_Z (total_size elems) / seconds_of_ns (total_delta elems))%Q.
Proof.
  callback_sums. cbn [Z.add].
  destruct (total_size elems =? 0); simpl; [reflexivity|].
  destruct (total_delta elems =? 0); reflexivity.
Qed.

(** On the samples a window spans, the elapsed time telescopes to the
    difference between the last and the first clock reading. *)
Corollary train_rate_window_telescopes (x : sample) (xs : list sample) :
  train_rate_window None (x :: xs) =
  let n := fold_right Z.add 0 (map batch_size (removelast (x :: xs))) in
  let t := time (last xs x) - time x in
  if (n =? 0) || (t =? 0) then None
  else Some (inject_Z n / seconds_of_ns t)%Q.
Proof.
  unfold train_rate_window. rewrite train_rate_without_sync.
  rewrite total_delta_pairwise, total_size_pairwise. reflexivity.
Qed.

(** C1 as stated fails when a synchronisation hook is installed: the rate
    given is not total size over total time difference, and a window whose
    time differences add up to zero still gives a rate. *)
Lemma train_rate_sync_counterexample :
  let e1 := {| time := 0; batch_size := 10 |} in
  let e2 := {| time := 500000000; batch_size := 10 |} in
  let sync := Some (0, 500000000) in
  (exists r, train_rate_callback sync [(e1, e2)] = Some r
             /\ (r == 10)%Q
             /\ (inject_Z (total_size [(e1, e2)])
                 / seconds_of_ns (total_delta [(e1, e2)]) == 20)%Q
             /\ ~ (r == inject_Z (total_size [(e1, e2)])
                        / seconds_of_ns (total_delta [(e1, e2)]))%Q)
  /\ total_delta [(e1, e1)] = 0
  /\ train_rate_callback sync [(e1, e1)] <> None.
Proof.
  cbv zeta. split; [|split].
  - eexists. split; [reflexivity|]. repeat split; try reflexivity.
    intros H. vm_compute in H. discriminate H.
  - reflexivity.
  - vm_compute. discriminate.
Qed.

(** ** stop *)

Lemma stop_signals_app (st : stop_state) (c : bool) (r i : nat) (out : list stop_output) :
  stop_signals {| called := c; remaining := r; index := i;
                  emitted := emitted st ++ out |}
  = stop_signals st
    ++ flat_map (fun o => match o with StopSignal v => [v] | Progress _ _ => [] end) out.
Proof. unfold stop_signals; simpl. apply flat_map_app. Qed.

(** While the counter of [skip] is positive an event only decrements it. *)
Lemma deliver_skipped react total fuel st value r :
  remaining st = S r ->
  exists st', deliver react total (S fuel) st value = Some st'
              /\ called st' = called st
              /\ remaining st' = r
              /\ stop_signals st' = stop_signals st.
Proof.
  intros Hr. simpl. rewrite Hr. eexists; split; [reflexivity|].
  repeat split. rewrite stop_signals_app. simpl. apply app_nil_r.
Qed.

(** Once [called] is set, an event that reaches [_stop] does nothing. *)
Lemma deliver_after_called react total fuel st value :
  remaining st = O -> called st = true ->
  exists st', deliver react total (S fuel) st value = Some st'
              /\ called st' = true
              /\ remaining st' = O
              /\ stop_signals st' = stop_signals st.
Proof.
  intros Hr Hc. simpl. rewrite Hr, Hc. eexists; split; [reflexivity|].
  repeat split. rewrite stop_signals_app. simpl. apply app_nil_r.
Qed.

Lemma deliver_all_after_called react total fuel values st :
  remaining st = O -> called st = true ->
  exists st',
    fold_left (fun acc v => option_bind acc (fun s => deliver react total (S fuel) s v))
              values (Some st) = Some st'
    /\ called st' = true
    /\ remaining st' = O
    /\ stop_signals st' = stop_signals st.
Proof.
  revert st; induction values as [|v vs IH]; intros st Hr Hc.
  - exists st. repeat split; assumption.
  - destruct (deliver_after_called react total fuel st v Hr Hc)
      as (st1 & E & Hc1 & Hr1 & Hs1).
    cbn [fold_left option_bind]. rewrite E.
    destruct (IH st1 Hr1 Hc1) as (st2 & E2 & Hc2 & Hr2 & Hs2).
    exists st2. repeat split; try assumption. congruence.
Qed.

(** The first event that reaches [_stop] is signalled, and whatever the host
    gives while [ov.stop] runs is not. *)
Lemma deliver_fires react total fuel st value :
  remaining st = O -> called st = false ->
  exists st', deliver react total (S (S fuel)) st value = Some st'
              /\ called st' = true
              /\ remaining st' = O
              /\ stop_signals st' = stop_signals st ++ [value].
Proof.
  intros Hr Hc. cbn [deliver]. cbn [remaining called index emitted].
  rewrite Hr, Hc.
  match goal with
  | |- context [fold_left _ _ (Some ?s)] => set (st1 := s)
  end.
  destruct (deliver_all_after_called react total fuel (react value) st1 eq_refl eq_refl)
    as (st2 & E & Hc2 & Hr2 & Hs2).
  exists st2. repeat split; try assumption.
  rewrite Hs2. subst st1. rewrite <- app_assoc, stop_signals_app. reflexivity.
Qed.

Lemma stop_run_not_called react total fuel values st :
  called st = false ->
  exists st',
    fold_left (fun acc v => option_bind acc (fun s => deliver react total (S (S fuel)) s v))
              values (Some st) = Some st'
    /\ stop_signals st' = stop_signals st ++ firstn 1 (skipn (remaining st) values).
Proof.
  revert st; induction values as [|v vs IH]; intros st Hc.
  - exists st. split; [reflexivity|].
    rewrite skipn_nil. simpl. now rewrite app_nil_r.
  - cbn [fold_left option_bind].
    destruct (remaining st) as [|r] eqn:Hr.
    + destruct (deliver_fires react total fuel st v Hr Hc) as (st1 & E & Hc1 & Hr1 & Hs1).
      rewrite E.
      destruct (deliver_all_after_called react total (S fuel) vs st1 Hr1 Hc1)
        as (st2 & E2 & _ & _ & Hs2).
      exists st2. split; [assumption|]. rewrite Hs2, Hs1. reflexivity.
    + destruct (deliver_skipped react total (S fuel) st v r Hr) as (st1 & E & Hc1 & Hr1 & Hs1).
      rewrite E.
      destruct (IH st1) as (st2 & E2 & Hs2); [congruence|].
      exists st2. split; [assumption|]. rewrite Hs2, Hs1, Hr1. reflexivity.
Qed.

(** C2 (as amended): for a positive parameter [n] the first [n] occurrences
    of [train_rate] are skipped and the stop signal is issued upon the
    occurrence that follows them, with that occurrence's value; it is issued
    once, whatever the host gives while the signal is delivered and whatever
    occurs afterwards.  Two levels of nesting are all the delivery needs. *)
Theorem stop_fires_once (react : Q -> list Q) (n fuel : nat) (values : list Q) :
  (0 < n)%nat -> (2 <= fuel)%nat ->
  exists st, stop react n fuel values = Some st
             /\ stop_signals st = rx_first (skip n values).
Proof.
  intros Hn Hfuel.
  destruct n as [|n]; [lia|].
  destruct fuel as [|[|fuel]]; try lia.
  unfold stop.
  destruct (stop_run_not_called react (S n) fuel values (stop_init (S n)) eq_refl)
    as (st & E & Hs).
  exists st. split; [exact E|]. rewrite Hs. reflexivity.
Qed.

Lemma stop_fires_once_witness :
  exists st, stop (fun v => [v; v]) 3 2 [1; 2; 3; 4; 5; 6]%Q = Some st
             /\ stop_signals st = [4%Q].
Proof. apply (stop_fires_once (fun v => [v; v]) 3 2 [1; 2; 3; 4; 5; 6]%Q); lia. Defined.

(** With the parameter at zero nothing is subscribed. *)
Lemma stop_zero_inert react fuel values :
  stop react 0 fuel values = Some (stop_init 0).
Proof. reflexivity. Qed.

(** C2 as stated fails: with parameter [3], nothing is signalled upon the
    third occurrence; the signal comes with the fourth. *)
Lemma stop_nth_counterexample :
  option_map stop_signals (stop (fun _ => []) 3 2 [1; 2; 3]%Q) = Some []
  /\ option_map stop_signals (stop (fun _ => []) 3 2 [1; 2; 3; 4]%Q) = Some [4%Q].
Proof. split; reflexivity. Qed.

(** ** GPUMonitor *)

Lemma execute_invariant (w : world) (P : monitor -> Prop) :
  (forall m a, P m -> P (act w m a)) ->
  forall schedule m, P m -> P (execute w schedule m).
Proof.
  intros Hstep schedule; induction schedule as [|a s IH]; intros m Hm.
  - exact Hm.
  - apply IH, Hstep, Hm.
Qed.

Lemma published_stop (m : monitor) : published (monitor_stop m) = published m.
Proof.
  unfold published, monitor_stop; simpl.
  rewrite flat_map_app. simpl. apply app_nil_r.
Qed.

Lemma published_step (w : world) (m : monitor) :
  published (run_step w m) =
  match loc m, telemetry w (polls m) with
  | AtPoll, Gpus d =>
      published m ++ [(clock m + Z.of_N (poll_ns w (polls m)), d)]
  | _, _ => published m
  end.
Proof.
  unfold run_step, published.
  destruct (loc m); try reflexivity; try (now destruct (telemetry w (polls m))).
  destruct (telemetry w (polls m)); simpl; [|reflexivity].
  rewrite flat_map_app. reflexivity.
Qed.

(** C3 (as amended): an exception raised by the telemetry call ends the
    monitor's loop.  If the [k]-th call raises, the thread makes no call
    after it, is dead once it made it, and every sample ever published is
    the reading of one of the [k] calls before it: nothing is published for
    the failed poll nor for any later one. *)
Theorem poll_failure_ends_monitor (w : world) (k : nat) (d0 : Z)
    (schedule : list action) :
  telemetry w k = PollRaises ->
  let m := execute w schedule (GPUMonitor d0) in
  (polls m <= S k)%nat
  /\ (polls m = S k -> loc m = Died)
  /\ (List.length (published m) <= k)%nat
  /\ Forall (fun p => exists j, (j < k)%nat /\ telemetry w j = Gpus (snd p))
            (published m).
Proof.
  intros Hk m.
  set (P := fun m : monitor =>
    ((polls m <= k /\ List.length (published m) <= polls m)
     \/ (polls m = S k /\ loc m = Died /\ List.length (published m) <= k))%nat
    /\ Forall (fun p => exists j, (j < k)%nat /\ telemetry w j = Gpus (snd p))
              (published m)).
  assert (HP : P m).
  { apply execute_invariant.
    - intros m0 [|] [Hc Hf]; cbn [act].
      + (* a step of the thread *)
        unfold P. rewrite published_step.
        unfold run_step.
        destruct (loc m0) eqn:Hl; cbn [polls loc].
        2: { destruct Hc as [[Hp Hlen]|[Hp [Hd _]]]; [|congruence].
             destruct (telemetry w (polls m0)) eqn:Ht; cbn [polls loc].
             - assert (polls m0 <> k) by (intros E; rewrite E in Ht; congruence).
               split.
               + left. rewrite length_app. simpl. lia.
               + apply Forall_app. split; [assumption|].
                 constructor; [|constructor].
                 exists (polls m0). split; [lia|exact Ht].
             - split; [|assumption].
               destruct (Nat.eq_dec (polls m0) k) as [E|Hne].
               + right. repeat split; lia.
               + left. lia. }
        all: split; [|assumption].
        all: destruct Hc as [Hc|[Hp [Hd Hlen]]];
          [left; exact Hc|try discriminate; right; repeat split; assumption].
      + (* stop() *)
        unfold P. rewrite published_stop. cbn [monitor_stop polls loc].
        split; assumption.
    - unfold P; simpl. split; [left; lia|constructor]. }
  destruct HP as [Hc Hf].
  split; [destruct Hc as [[? ?]|[? ?]]; lia|].
  split; [intros E; destruct Hc as [[? ?]|[? [? ?]]]; [lia|assumption]|].
  split; [destruct Hc as [[? ?]|[? [? ?]]]; lia|exact Hf].
Qed.

Lemma poll_failure_ends_monitor_witness :
  let w := {| telemetry := fun j => if (j <? 2)%nat then Gpus [j] else PollRaises;
              poll_ns := fun _ => 0%N |} in
  let m := execute w (repeat Tick 20) (GPUMonitor 1) in
  (polls m <= 3)%nat
  /\ (polls m = 3%nat -> loc m = Died)
  /\ (List.length (published m) <= 2)%nat
  /\ Forall (fun p => exists j, (j < 2)%nat /\ telemetry w j = Gpus (snd p))
            (published m).
Proof.
  intros w.
  exact (poll_failure_ends_monitor w 2 1 (repeat Tick 20) eq_refl).
Defined.

(** C3 as stated fails: when the first five telemetry calls raise and the
    sixth would succeed, the thread dies on the first and never publishes. *)
Lemma poll_failure_counterexample :
  let w := {| telemetry := fun j => if (j <? 5)%nat then PollRaises else Gpus [7%nat];
              poll_ns := fun _ => 0%N |} in
  let m := profile_gpu w (repeat Tick 60) in
  telemetry w 5 = Gpus [7%nat]
  /\ loc m = Died
  /\ polls m = 1%nat
  /\ published m = [].
Proof. cbv zeta. repeat split; reflexivity. Qed.

Lemma stop_seen_snoc (tr : list trace_event) (e : trace_event) :
  stop_seen (tr ++ [e])
  = stop_seen tr || match e with StopReturned => true | Published _ _ => false end.
Proof. unfold stop_seen. rewrite existsb_app. simpl. now rewrite orb_false_r. Qed.

Lemma published_after_stop_unseen (tr : list trace_event) (e : trace_event) :
  stop_seen tr = false -> published_after_stop (tr ++ [e]) = [].
Proof.
  induction tr as [|[t d|] tl IH]; simpl; intros H.
  - destruct e; reflexivity.
  - apply IH, H.
  - discriminate H.
Qed.

Lemma published_after_stop_seen (tr : list trace_event) (e : trace_event) :
  stop_seen tr = true ->
  published_after_stop (tr ++ [e])
  = published_after_stop tr
    ++ match e with Published t d => [(t, d)] | StopReturned => [] end.
Proof.
  induction tr as [|[t d|] tl IH]; simpl; intros H.
  - discriminate H.
  - apply IH, H.
  - rewrite flat_map_app. simpl. destruct e; simpl; now rewrite ?app_nil_r.
Qed.

(** [stop()] sets the flag and returns: the thread stays where it is. *)
Lemma stop_only_sets_flag (m : monitor) :
  stopped (monitor_stop m) = true
  /\ loc (monitor_stop m) = loc m
  /\ polls (monitor_stop m) = polls m.
Proof. repeat split. Qed.

(** C7 (as amended): [stop()] only sets the flag and returns without waiting
    for the thread, so a poll that had passed the flag check may still be
    published after the return; at most one sample is, in any interleaving
    of the two threads. *)
Theorem stop_leaves_one_poll_in_flight (w : world) (d0 : Z) (schedule : list action) :
  (List.length
     (published_after_stop (trace (execute w schedule (GPUMonitor d0)))) <= 1)%nat.
Proof.
  set (P := fun m : monitor =>
    if stopped m
    then stop_seen (trace m) = true
         /\ (List.length (published_after_stop (trace m)) <= 1)%nat
         /\ (loc m = AtPoll -> published_after_stop (trace m) = [])
    else stop_seen (trace m) = false).
  assert (HP : P (execute w schedule (GPUMonitor d0))).
  { apply execute_invariant; [|reflexivity].
    intros m [|] Hm; cbn [act]; unfold P in *.
    - unfold run_step.
      destruct (loc m) eqn:Hl; cbn [stopped trace loc].
      2: { destruct (telemetry w (polls m)); cbn [stopped trace loc].
           - destruct (stopped m).
             + destruct Hm as (Hs & _ & Hp).
               rewrite stop_seen_snoc, Hs, (published_after_stop_seen _ _ Hs), (Hp eq_refl).
               repeat split; simpl; try lia. discriminate.
             + rewrite stop_seen_snoc, Hm. reflexivity.
           - destruct (stopped m); [|exact Hm].
             destruct Hm as (Hs & Hlen & _). repeat split; try assumption. discriminate. }
      all: destruct (stopped m); [|exact Hm].
      all: destruct Hm as (Hs & Hlen & _); repeat split; try assumption.
      all: rewrite ?Hl; discriminate.
    - cbn [monitor_stop stopped trace loc].
      rewrite stop_seen_snoc, orb_true_r.
      destruct (stopped m).
      + destruct Hm as (Hs & Hlen & Hp).
        rewrite (published_after_stop_seen _ _ Hs), app_nil_r.
        repeat split; assumption.
      + rewrite (published_after_stop_unseen _ _ Hm).
        repeat split; simpl; lia. }
  unfold P in HP.
  destruct (stopped (execute w schedule (GPUMonitor d0))).
  - apply HP.
  - assert (E : forall tr, stop_seen tr = false -> published_after_stop tr = []).
    { induction tr as [|[t d|] tl IH]; simpl; intros H;
        [reflexivity|apply IH, H|discriminate H]. }
    rewrite (E _ HP). simpl. lia.
Qed.

(** C7 as stated fails: the thread checks the flag, the main thread calls
    [stop()], which returns, and the thread then publishes its sample. *)
Lemma stop_no_join_counterexample :
  let w := {| telemetry := fun _ => Gpus [3%nat]; poll_ns := fun _ => 5%N |} in
  let m := profile_gpu w [Tick; CallStop; Tick] in
  trace m = [StopReturned; Published 5 [3%nat]]
  /\ published_after_stop (trace m) = [(5, [3%nat])].
Proof. split; reflexivity. Qed.

Lemma snoc_case {A : Type} (l : list A) :
  l = [] \/ exists l' a, l = l' ++ [a].
Proof.
  induction l as [|x tl _] using rev_ind; [now left|right].
  now exists tl, x.
Qed.

Lemma pairwise_snoc {A : Type} (xs : list A) (x y : A) :
  pairwise ((xs ++ [x]) ++ [y]) = pairwise (xs ++ [x]) ++ [(x, y)].
Proof.
  induction xs as [|a xs IH]; [reflexivity|].
  destruct xs as [|b xs'].
  - reflexivity.
  - change (pairwise (a :: b :: ((xs' ++ [x]) ++ [y]))
            = pairwise (a :: b :: (xs' ++ [x])) ++ [(x, y)]).
    change (pairwise (a :: b :: ((xs' ++ [x]) ++ [y])))
      with ((a, b) :: pairwise (((b :: xs') ++ [x]) ++ [y])).
    rewrite IH. reflexivity.
Qed.

Lemma gaps_at_least_snoc (d : Z) (ts : list Z) (t u : Z) :
  gaps_at_least d (ts ++ [t]) -> u - t >= d -> gaps_at_least d ((ts ++ [t]) ++ [u]).
Proof.
  unfold gaps_at_least. intros H Hu. rewrite pairwise_snoc.
  apply Forall_app. split; [exact H|]. constructor; [exact Hu|constructor].
Qed.

(** The thread publishes, sleeps [delay] seconds, checks the flag and polls
    again: two successive samples are at least [delay] seconds apart. *)
Lemma monitor_interval (w : world) (d : Z) (schedule : list action) :
  gaps_at_least (d * ns_per_second)
    (map fst (published (execute w schedule (GPUMonitor d)))).
Proof.
  set (P := fun m : monitor =>
    delay m = d
    /\ gaps_at_least (d * ns_per_second) (map fst (published m))
    /\ forall ts t, map fst (published m) = ts ++ [t] ->
         (loc m = AtSleep -> clock m = t)
         /\ (loc m = AtCheck \/ loc m = AtPoll -> clock m = t + d * ns_per_second)).
  assert (HP : P (execute w schedule (GPUMonitor d))).
  { apply execute_invariant.
    - intros m [|] (Hd & Hg & Hlast); cbn [act]; unfold P.
      + rewrite published_step. unfold run_step.
        destruct (loc m) eqn:Hl; cbn [delay loc clock].
        * (* flag check *)
          split; [exact Hd|split; [exact Hg|intros ts t E]].
          split; [destruct (stopped m); discriminate|].
          intros _. apply (Hlast ts t E). now left.
        * (* poll *)
          destruct (telemetry w (polls m)) as [g|]; cbn [delay loc clock].
          -- rewrite map_app. cbn [map fst].
             split; [exact Hd|]. split.
             ++ destruct (snoc_case (map fst (published m))) as [E|(ts & t & E)].
                ** rewrite E. constructor.
                ** rewrite E. apply gaps_at_least_snoc; [now rewrite <- E|].
                   destruct (Hlast ts t E) as [_ Hc]. rewrite Hc by now right. lia.
             ++ intros ts t E. apply app_inj_tail in E. destruct E as [_ <-].
                split; [reflexivity|]. intros [H|H]; discriminate H.
          -- split; [exact Hd|split; [exact Hg|intros ts t E]].
             split; [discriminate|]. intros [H|H]; discriminate H.
        * (* sleep *)
          split; [exact Hd|split; [exact Hg|intros ts t E]].
          split; [discriminate|].
          intros _. destruct (Hlast ts t E) as [Hs _].
          unfold time_sleep. rewrite (Hs eq_refl), Hd. reflexivity.
        * split; [exact Hd|split; [exact Hg|intros ts t E]].
          rewrite Hl. split; [discriminate|]. intros [H|H]; discriminate H.
        * split; [exact Hd|split; [exact Hg|intros ts t E]].
          rewrite Hl. split; [discriminate|]. intros [H|H]; discriminate H.
      + rewrite published_stop. cbn [monitor_stop delay loc clock].
        split; [exact Hd|split; [exact Hg|intros ts t E]].
        apply (Hlast ts t E).
    - unfold P. simpl. split; [reflexivity|]. split; [constructor|].
      intros ts t E. destruct ts; discriminate E. }
  apply HP.
Qed.

(** C8 (as amended): the monitor started by the [gpu] instrument sleeps
    [100] seconds after each sample, so two successive samples are at least
    [100] seconds apart. *)
Theorem profile_gpu_interval (w : world) (schedule : list action) :
  gaps_at_least (100 * ns_per_second)
    (map fst (published (profile_gpu w schedule))).
Proof. apply (monitor_interval w 100 schedule). Qed.

(** C8 as stated fails: with telemetry calls that take no time, two
    successive samples are [100] seconds apart, not [100] milliseconds. *)
Lemma profile_gpu_interval_counterexample :
  let w := {| telemetry := fun _ => Gpus [0%nat]; poll_ns := fun _ => 0%N |} in
  let ms := 1000000 in
  map fst (published (profile_gpu w (repeat Tick 5))) = [0; 100000 * ms]
  /\ 100000 * ms - 0 <> 100 * ms.
Proof. split; [reflexivity|discriminate]. Qed.

(** ** verify *)

Lemma Qltb_lt (x y : Q) : Qltb x y = true <-> (x < y)%Q.
Proof.
  unfold Qltb. rewrite negb_true_iff. split.
  - intros H. apply Qnot_le_lt. intros Hle.
    apply Qle_bool_iff in Hle. congruence.
  - intros H. apply not_true_is_false. intros Hle.
    apply Qle_bool_iff in Hle. apply (Qlt_not_le _ _ H Hle).
Qed.

(** C5: on a channel of losses that starts with [initial] and ends with
    [final], verify sends [verify.loss_decreases] as [final < initial] and
    [verify.loss_below_threshold] as [final < 1], both strict; the losses
    2.0, 1.5, 0.8 give true and true, and the losses 1.0, 1.0 give a false
    [loss_decreases]. *)
Theorem verify_loss_checks :
  (forall (initial : Q) (rest : list Q),
     let final := last rest initial in
     verify_losses (initial :: rest)
     = [("verify.loss_decreases"%string, Qltb final initial);
        ("verify.loss_below_threshold"%string, Qltb final 1)])
  /\ verify_losses [2; 3 # 2; 4 # 5]%Q
     = [("verify.loss_decreases"%string, true);
        ("verify.loss_below_threshold"%string, true)]
  /\ verify_losses [1; 1]%Q
     = [("verify.loss_decreases"%string, false);
        ("verify.loss_below_threshold"%string, false)].
Proof.
  split; [|split; reflexivity].
  intros initial rest final. reflexivity.
Qed.

(** ** profile *)

(** C4, at the declared default: the name is the empty string, which is
    neither [None] nor a known profiler, and the body raises. *)
Theorem profile_default_raises :
  options_profile None = Some ""%string
  /\ profile (options_profile None)
     = Raise (NotImplementedError "Unknown profiler: ").
Proof. split; reflexivity. Qed.

(** A profiler is attached only for the two names the body knows, and the
    body is inactive only for [None]. *)
Lemma profile_method_only_when_named (name : option string) (m : profile_method) :
  profile name = Ok (ProfileWith m) ->
  (name = Some "torch"%string /\ m = profile_with_torch_profiler)
  \/ (name = Some "deepspeed"%string /\ m = profile_with_deepspeed).
Proof.
  destruct name as [s|]; simpl; [|discriminate].
  destruct (String.eqb_spec s "torch") as [->|_].
  - intros H; injection H as <-. now left.
  - destruct (String.eqb_spec s "deepspeed") as [->|_]; [|discriminate].
    intros H; injection H as <-. now right.
Qed.

Lemma profile_inactive_only_for_none (name : option string) :
  profile name = Ok ProfileInactive <-> name = None.
Proof.
  split; [|now intros ->].
  destruct name as [s|]; simpl; [|reflexivity].
  destruct (String.eqb s "torch"); [discriminate|].
  destruct (String.eqb s "deepspeed"); discriminate.
Qed.

(** ** loading_rate and compute_rate *)

Lemma py_truediv_ok (n t : Z) :
  t <> 0 -> py_truediv n (seconds_of_ns t) = Ok (inject_Z n / seconds_of_ns t)%Q.
Proof.
  intros Ht. unfold py_truediv. rewrite seconds_of_ns_zero.
  destruct (Z.eqb_spec t 0); [contradiction|reflexivity].
Qed.

(** C9: a loader whose [__iter__] is not a generator function and whose
    iterator type has no [next] attribute is reported on the error stream;
    no probe is installed, nothing is given for any of its iterations, and
    nothing is raised. *)
Theorem loading_rate_unsupported_loader (l : loader) (typ : iterator_type)
    (spans : list span) :
  iter_is_generator_function l = false ->
  type_of_iter l = Some typ ->
  has_next typ = false ->
  loading_rate_subscribe l
  = Ok {| stderr := [("Error: cannot instrument loader of type "
                      ++ type_repr typ)%string];
          installed := None |}
  /\ loading_rate l spans = ([], None).
Proof.
  intros Hg Ht Hn. unfold loading_rate, loading_rate_subscribe.
  rewrite Hg, Ht, Hn. split; reflexivity.
Qed.

Lemma loading_rate_unsupported_loader_witness :
  let l := {| iter_is_generator_function := false;
              type_of_iter := Some {| type_repr := "<class 'list_iterator'>";
                                      has_next := false |} |} in
  let s := {| t_enter := 0; t_exit := 1000;
              exit_data := [("batch"%string, PySized 8)] |} in
  loading_rate_subscribe l
  = Ok {| stderr := ["Error: cannot instrument loader of type <class 'list_iterator'>"%string];
          installed := None |}
  /\ loading_rate l [s; s] = ([], None).
Proof.
  intros l s.
  exact (loading_rate_unsupported_loader l
           {| type_repr := "<class 'list_iterator'>"; has_next := false |}
           [s; s] eq_refl eq_refl eq_refl).
Defined.

Lemma py_truediv_zero (n t : Z) :
  t = 0 -> py_truediv n (seconds_of_ns t) = Raise ZeroDivisionError.
Proof. intros ->. reflexivity. Qed.




(** On a list batch the two instruments agree: both take the first item. *)
Lemma list_batch_rates_agree (s : span) (items : list pyval) :
  dict_get "batch" (exit_data s) = Some (PyList items) ->
  compute_timing s = loading_timing s.
Proof.
  intros Hd. unfold compute_timing, loading_timing. rewrite Hd. reflexivity.
Qed.

Lemma timing_without_batch (s : span) :
  has_batch s = false ->
  loading_timing s = Ok None /\ compute_timing s = Ok None.
Proof.
  unfold has_batch, loading_timing, compute_timing.
  destruct (dict_get "batch" (exit_data s)); [discriminate|]. now split.
Qed.

(** The rate of one span of [loading_rate]: the length of the batch, or of
    its first item when the batch is a list or a tuple, over the elapsed
    seconds. *)
Lemma loading_timing_rate (s : span) (data payload : pyval) (n : Z) :
  dict_get "batch" (exit_data s) = Some data ->
  (if is_list_or_tuple data then py_getitem0 data else Ok data) = Ok payload ->
  py_len payload = Ok n ->
  t_exit s <> t_enter s ->
  loading_timing s
  = Ok (Some (inject_Z n / seconds_of_ns (t_exit s - t_enter s))%Q).
Proof.
  intros Hd Hp Hn Ht. unfold loading_timing. rewrite Hd, Hp. cbn [bind].
  rewrite Hn. cbn [bind]. rewrite py_truediv_ok by lia. reflexivity.
Qed.

(** The same for [compute_rate], where only a list is replaced by its first
    item. *)
Lemma compute_timing_rate (s : span) (data payload : pyval) (n : Z) :
  dict_get "batch" (exit_data s) = Some data ->
  (if is_list data then py_getitem0 data else Ok data) = Ok payload ->
  py_len payload = Ok n ->
  t_exit s <> t_enter s ->
  compute_timing s
  = Ok (Some (inject_Z n / seconds_of_ns (t_exit s - t_enter s))%Q).
Proof.
  intros Hd Hp Hn Ht. unfold compute_timing. rewrite Hd, Hp. cbn [bind].
  rewrite Hn. cbn [bind]. rewrite py_truediv_ok by lia. reflexivity.
Qed.

Lemma wmap_cons (timing : span -> result (option Q)) (s : span) (tl : list span) :
  wmap timing (s :: tl)
  = match timing s with
    | Ok v => ((t_exit s, v) :: fst (wmap timing tl), snd (wmap timing tl))
    | Raise e => ([], Some e)
    end.
Proof. simpl. destruct (timing s); [|reflexivity]. now destruct (wmap timing tl). Qed.

Lemma numbers_cons (t : Z) (v : option Q) (tl : list (Z * option Q)) (err : option exn) :
  numbers ((t, v) :: tl) err
  = match v with
    | Some q => ((t, q) :: fst (numbers tl err), snd (numbers tl err))
    | None => ([], Some TypeError)
    end.
Proof. simpl. destruct v; [|reflexivity]. now destruct (numbers tl err). Qed.

(** In [loading_rate] a span without a batch leaves no mark: what is given
    is what would be given had the span not occurred. *)
Lemma loading_rate_skips_spans_without_batch (spans : list span) :
  loading_rate_pipeline spans = loading_rate_pipeline (filter has_batch spans).
Proof.
  unfold loading_rate_pipeline.
  assert (E : filter_not_none (wmap loading_timing spans)
              = filter_not_none (wmap loading_timing (filter has_batch spans))).
  { induction spans as [|s tl IH]; [reflexivity|].
    cbn [filter]. destruct (has_batch s) eqn:Hb.
    - rewrite !wmap_cons. destruct (loading_timing s) as [v|e]; [|reflexivity].
      unfold filter_not_none in *. cbn [fst snd not_none].
      injection IH as IH1 IH2. rewrite IH1, IH2. reflexivity.
    - rewrite wmap_cons. destruct (timing_without_batch s Hb) as [-> _].
      rewrite <- IH. reflexivity. }
  rewrite E. reflexivity.
Qed.

(** In [compute_rate] the [None] of a span without a batch reaches the
    averaging stage, which raises: what was given for the spans before it
    is all that is given. *)
Lemma compute_rate_raises_without_batch (before after : list span) (s : span)
    (items : list (Z * option Q)) (nums : list (Z * Q)) :
  wmap compute_timing before = (items, None) ->
  numbers items None = (nums, None) ->
  has_batch s = false ->
  compute_rate_pipeline (before ++ s :: after) = (smooth nums, Some TypeError).
Proof.
  intros Hw Hn Hb. unfold compute_rate_pipeline.
  assert (E : forall err,
             numbers (fst (wmap compute_timing (before ++ s :: after))) err
             = (nums, Some TypeError)).
  { revert items nums Hw Hn.
    induction before as [|b tl IH]; intros items nums Hw Hn err.
    - cbn [app]. rewrite wmap_cons. destruct (timing_without_batch s Hb) as [_ ->].
      cbn [fst]. rewrite numbers_cons.
      simpl in Hw. injection Hw as <-. simpl in Hn. injection Hn as <-.
      reflexivity.
    - cbn [app]. rewrite wmap_cons in Hw |- *.
      destruct (compute_timing b) as [v|e]; [|discriminate Hw].
      injection Hw as Hi He. subst items. cbn [fst].
      rewrite numbers_cons in Hn |- *.
      destruct v as [q|]; [|discriminate Hn].
      injection Hn as Hn1 Hn2. subst nums.
      rewrite (IH (fst (wmap compute_timing tl)) (fst (numbers (fst (wmap compute_timing tl)) None))).
      + reflexivity.
      + revert He. destruct (wmap compute_timing tl) as [its e']. simpl.
        now intros ->.
      + revert Hn2. destruct (numbers (fst (wmap compute_timing tl)) None) as [ns e'].
        simpl. now intros ->. }
  destruct (wmap compute_timing (before ++ s :: after)) as [its err] eqn:Hall.
  cbn [fst] in E. rewrite E. reflexivity.
Qed.

(** C6, on [compute_rate]: a span whose exit data has no batch makes
    [_timing] return [None]; [loading_rate] filters it out and gives
    nothing for the span, whereas [compute_rate] hands it to the averaging
    stage, which raises. *)
Theorem compute_rate_span_without_batch :
  let s := {| t_enter := 0; t_exit := 2000000;
              exit_data := [("loss"%string, PySized 1)] |} in
  compute_timing s = Ok None
  /\ compute_rate_pipeline [s] = ([], Some TypeError)
  /\ loading_timing s = Ok None
  /\ loading_rate_pipeline [s] = ([], None).
Proof. cbv zeta. repeat split; reflexivity. Qed.

(** ** Stream operators on the cases of the specification *)

Example pairwise_three : pairwise [1; 2; 3] = [(1, 2); (2, 3)].
Proof. reflexivity. Qed.

Example pairwise_single : pairwise [1] = [].
Proof. reflexivity. Qed.

Example throttle_one_second :
  map fst (throttle (1 * ns_per_second)
             [(0, tt); (200000000, tt); (900000000, tt); (1100000000, tt)])
  = [0; 1100000000].
Proof. reflexivity. Qed.

Example average_scan_window :
  map Qred (average_scan 2 [1; 2; 3; 7]%Q) = [1; 3 # 2; 5 # 2; 5]%Q.
Proof. reflexivity. Qed.

Lemma average_scan_length (n : nat) (xs : list Q) :
  List.length (average_scan n xs) = List.length xs.
Proof.
  unfold average_scan. generalize (@nil Q).
  induction xs as [|x tl IH]; intros seen; [reflexivity|].
  simpl. now rewrite IH.
Qed.

(** ** dash *)

Lemma assoc_set_keys {V : Type} (k : string) (v : V) (d : list (string * V)) :
  map fst (assoc_set k v d) = map fst d.
Proof.
  induction d as [|[k' v'] d IH]; [reflexivity|].
  simpl. destruct (String.eqb k k'); simpl; [reflexivity|now rewrite IH].
Qed.

Lemma assoc_None_iff {V : Type} (k : string) (d : list (string * V)) :
  assoc k d = None <-> ~ In k (map fst d).
Proof.
  induction d as [|[k' v'] d IH]; simpl.
  - split; [intros _ []|reflexivity].
  - destruct (String.eqb_spec k k') as [->|Hne].
    + split; [discriminate|intros H; exfalso; apply H; now left].
    + rewrite IH. split.
      * intros H [E|HIn]; [now apply Hne|now apply H].
      * intros H HIn. apply H. now right.
Qed.

Lemma assoc_app_Some {V : Type} (k : string) (d e : list (string * V)) (v : V) :
  assoc k d = Some v -> assoc k (d ++ e) = Some v.
Proof.
  induction d as [|[k' v'] d IH]; simpl; [discriminate|].
  destruct (String.eqb k k'); [trivial|exact IH].
Qed.

Lemma assoc_app_None {V : Type} (k : string) (d e : list (string * V)) :
  assoc k d = None -> assoc k (d ++ e) = assoc k e.
Proof.
  induction d as [|[k' v'] d IH]; simpl; [reflexivity|].
  destruct (String.eqb k k'); [discriminate|exact IH].
Qed.

Lemma assoc_set_same {V : Type} (k : string) (v r : V) (d : list (string * V)) :
  assoc k d = Some r -> assoc k (assoc_set k v d) = Some v.
Proof.
  induction d as [|[k' v'] d IH]; simpl; [discriminate|].
  destruct (String.eqb k k') eqn:E; simpl; rewrite E; [reflexivity|exact IH].
Qed.

Lemma assoc_set_other {V : Type} (k k' : string) (v : V) (d : list (string * V)) :
  k' <> k -> assoc k' (assoc_set k v d) = assoc k' d.
Proof.
  intros Hne. induction d as [|[k0 v0] d IH]; [reflexivity|].
  simpl. destruct (String.eqb_spec k k0) as [->|Hk]; simpl.
  - destruct (String.eqb_spec k' k0); [contradiction|reflexivity].
  - destruct (String.eqb k' k0); [reflexivity|exact IH].
Qed.

Lemma NoDup_snoc {A : Type} (l : list A) (a : A) :
  NoDup l -> ~ In a l -> NoDup (l ++ [a]).
Proof.
  induction l as [|x l IH]; intros Hn Ha; simpl.
  - constructor; [intros []|constructor].
  - inversion Hn as [|? ? Hx Hl]; subst. constructor.
    + rewrite in_app_iff. intros [H|[H|[]]]; [contradiction|].
      apply Ha. now left.
    + apply IH; [assumption|]. intros H. apply Ha. now right.
Qed.

Section DashFacts.

Variable value : Type.
Variable str : value -> string.
Variable truthy : value -> bool.

Lemma progress_key_not_reserved (descr : value) :
  reserved (progress_key value str descr) = false.
Proof. reflexivity. Qed.

Lemma table_consistent_add (st : dash_state value) (k : string) (r : row value) :
  table_consistent st -> reserved k = false -> assoc k (rows st) = None ->
  table_consistent {| rows := rows st ++ [(k, r)]; table := table st ++ [k] |}.
Proof.
  intros (Ht & Hn & Hr) Hk Ha. unfold table_consistent. cbn [rows table].
  rewrite map_app. cbn [map fst]. repeat split.
  - now rewrite Ht.
  - apply NoDup_snoc; [assumption|]. now apply assoc_None_iff.
  - apply Forall_app. split; [assumption|]. now constructor.
Qed.

Lemma table_consistent_set (st : dash_state value) (k : string) (r : row value) :
  table_consistent st ->
  table_consistent {| rows := assoc_set k r (rows st); table := table st |}.
Proof.
  intros (Ht & Hn & Hr). unfold table_consistent. cbn [rows table].
  rewrite assoc_set_keys. now repeat split.
Qed.

Lemma show_item_consistent (units : option value) (st : dash_state value)
    (item : string * value) :
  table_consistent st -> table_consistent (show_item value str truthy units st item).
Proof.
  intros H. destruct item as [k v]. unfold show_item.
  destruct (reserved k) eqn:Hk; [exact H|].
  destruct (assoc k (rows st)) eqn:Ha.
  - now apply table_consistent_set.
  - now apply table_consistent_add.
Qed.

Lemma update_with_consistent (st st' : dash_state value) (values : list (string * value)) :
  table_consistent st ->
  update_with value str truthy st values = Updated st' ->
  table_consistent st'.
Proof.
  intros H. unfold update_with.
  assert (Hfold : forall items s, table_consistent s ->
            table_consistent
              (fold_left (show_item value str truthy (assoc "units" values)) items s)).
  { induction items as [|i tl IH]; intros s Hs; [exact Hs|].
    simpl. apply IH, show_item_consistent, Hs. }
  assert (Hprog : forall t p d, update_progress value str st t p d = Updated st' ->
            table_consistent st').
  { intros t p d. unfold update_progress.
    destruct (assoc (progress_key value str d) (rows st)) as [r|] eqn:Ha.
    - rewrite Ha. destruct r; [|discriminate].
      intros E; injection E as <-. now apply table_consistent_set.
    - cbn [rows table]. rewrite (assoc_app_None _ _ _ Ha). simpl.
      rewrite String.eqb_refl.
      intros E; injection E as <-.
      apply (table_consistent_set
               {| rows := rows st ++ [(progress_key value str d, ProgressBar [] None)];
                  table := table st ++ [progress_key value str d] |}).
      apply table_consistent_add; [assumption|reflexivity|assumption]. }
  destruct (assoc "total" values) as [t|];
    [destruct (assoc "progress" values) as [pr|];
     [destruct (assoc "descr" values) as [d|]|]|];
    try (intros E; injection E as <-; now apply Hfold).
  apply Hprog.
Qed.

(** Whatever was given and sent, the table has exactly one row per key of
    [rows], in the order the keys first appeared, and none of them is
    [units] or starts with [$] or [#]. *)
Theorem dash_table_consistent (events : list (dash_event value)) (st : dash_state value) :
  dash_run value str truthy events dash_init = Updated st ->
  table_consistent st.
Proof.
  assert (G : forall evs s s', table_consistent s ->
            dash_run value str truthy evs s = Updated s' -> table_consistent s').
  { induction evs as [|e tl IH]; intros s s' Hs; simpl.
    - intros E; injection E as <-. exact Hs.
    - destruct (dash_step value str truthy s e) as [s1|x] eqn:E1; [|discriminate].
      apply IH. destruct e as [values|values]; simpl in E1.
      + destruct (assoc "silent" values).
        * injection E1 as <-. exact Hs.
        * now apply (update_with_consistent s s1 values).
      + now apply (update_with_consistent s s1 values). }
  apply G. unfold table_consistent. simpl. repeat split; constructor.
Qed.

End DashFacts.

Lemma dash_table_consistent_witness :
  let truthy := fun s : string => negb (String.eqb s "") in
  let events :=
    [Given [("loss", "0.5"); ("units", "nats"); ("$wrap", "x")];
     Sent [("total", "3"); ("progress", "1"); ("descr", "train")];
     Given [("silent", "1"); ("hidden", "2")];
     Given [("loss", "0.4")]]%string in
  match dash_run string (fun s => s) truthy events dash_init with
  | Updated st => table st = ["loss"; "\[train]"]%string /\ table_consistent st
  | Raised _ => False
  end.
Proof.
  intros truthy events. split; [reflexivity|].
  refine (dash_table_consistent string (fun s => s) truthy events _ eq_refl).
Defined.

Section DashRows.

Variable value : Type.
Variable str : value -> string.
Variable truthy : value -> bool.

Lemma show_item_other (units : option value) (st : dash_state value)
    (item : string * value) (k : string) :
  fst item <> k ->
  assoc k (rows (show_item value str truthy units st item)) = assoc k (rows st).
Proof.
  destruct item as [k0 v0]. cbn [fst]. intros Hne. unfold show_item.
  destruct (reserved k0); [reflexivity|].
  destruct (assoc k0 (rows st)) eqn:Ha; cbn [rows].
  - apply assoc_set_other. congruence.
  - destruct (assoc k (rows st)) eqn:Hk.
    + now apply assoc_app_Some.
    + rewrite (assoc_app_None _ _ _ Hk). simpl.
      destruct (String.eqb_spec k k0); [congruence|reflexivity].
Qed.

Lemma show_item_sets (units : option value) (st : dash_state value)
    (k : string) (v : value) :
  reserved k = false ->
  assoc k (rows (show_item value str truthy units st (k, v)))
  = Some match assoc k (rows st) with
         | Some r => set_object v r
         | None =>
             match units with
             | Some u =>
                 if truthy u then Plain v ("{} " ++ str u)%string
                 else Plain v "{}"
             | None => Plain v "{}"
             end
         end.
Proof.
  intros Hk. unfold show_item. rewrite Hk.
  destruct (assoc k (rows st)) as [r0|] eqn:Ha; cbn [rows].
  - now apply (assoc_set_same _ _ r0).
  - rewrite (assoc_app_None _ _ _ Ha). simpl. now rewrite String.eqb_refl.
Qed.

Lemma fold_show_other (units : option value) (items : list (string * value))
    (st : dash_state value) (k : string) :
  ~ In k (map fst items) ->
  assoc k (rows (fold_left (show_item value str truthy units) items st))
  = assoc k (rows st).
Proof.
  revert st; induction items as [|i tl IH]; intros st Hk; [reflexivity|].
  simpl. rewrite IH.
  - apply show_item_other. intros E. apply Hk. now left.
  - intros H. apply Hk. now right.
Qed.

(** A value given under a key that is not reserved becomes the object of
    the plain row of that key: of the row that was there, whose format is
    kept, or of a new row whose format is made from the units of the same
    dictionary.  Only when the key is that of a progress bar does the row
    stay the bar it was, the value being left on it as a stray attribute. *)
Theorem dash_last_value_shown (st : dash_state value)
    (values : list (string * value)) (k : string) (v : value) :
  assoc "total" values = None \/ assoc "progress" values = None
  \/ assoc "descr" values = None ->
  NoDup (map fst values) ->
  In (k, v) values ->
  reserved k = false ->
  exists st',
    update_with value str truthy st values = Updated st'
    /\ assoc k (rows st')
       = Some match assoc k (rows st) with
              | Some (Plain _ fmt) => Plain v fmt
              | Some (ProgressBar updates _) => ProgressBar updates (Some v)
              | None =>
                  match assoc "units" values with
                  | Some u =>
                      if truthy u then Plain v ("{} " ++ str u)%string
                      else Plain v "{}"
                  | None => Plain v "{}"
                  end
              end.
Proof.
  intros Hpath Hnd Hin Hk.
  assert (Hfold : forall units items s,
            NoDup (map fst items) -> In (k, v) items ->
            assoc k (rows (fold_left (show_item value str truthy units) items s))
            = Some match assoc k (rows s) with
                   | Some r => set_object v r
                   | None =>
                       match units with
                       | Some u =>
                           if truthy u then Plain v ("{} " ++ str u)%string
                           else Plain v "{}"
                       | None => Plain v "{}"
                       end
                   end).
  { intros units. induction items as [|[k0 v0] tl IH]; intros s Hn Hi; [destruct Hi|].
    cbn [map fst] in Hn. inversion Hn as [|? ? Hnotin Hn']; subst.
    destruct Hi as [E|Hi].
    - injection E as -> ->. cbn [fold_left]. rewrite fold_show_other by assumption.
      now apply show_item_sets.
    - cbn [fold_left]. rewrite (IH _ Hn' Hi).
      rewrite show_item_other; [reflexivity|].
      cbn [fst]. intros ->. apply Hnotin.
      apply (in_map fst) in Hi. exact Hi. }
  unfold update_with.
  specialize (Hfold (assoc "units" values) values st Hnd Hin).
  assert (Hrow : forall r : row value,
            set_object v r
            = match r with
              | Plain _ fmt => Plain v fmt
              | ProgressBar updates _ => ProgressBar updates (Some v)
              end) by (intros [ups stray|o f]; reflexivity).
  destruct (assoc "total" values) as [t|];
    [destruct (assoc "progress" values) as [pr|];
     [destruct (assoc "descr" values) as [d|]|]|];
    try (eexists; split; [reflexivity|]; rewrite Hfold;
         destruct (assoc k (rows st)) as [[ups stray|o f]|]; reflexivity).
  destruct Hpath as [H|[H|H]]; discriminate H.
Qed.

Lemma update_progress_inv (st st' : dash_state value) (t p d : value) :
  update_progress value str st t p d = Updated st' ->
  (forall k, k <> progress_key value str d -> assoc k (rows st') = assoc k (rows st))
  /\ exists updates stray,
       assoc (progress_key value str d) (rows st')
       = Some (ProgressBar (updates ++ [(t, p)]) stray)
       /\ (assoc (progress_key value str d) (rows st) = Some (ProgressBar updates stray)
           \/ (assoc (progress_key value str d) (rows st) = None
               /\ updates = [] /\ stray = None)).
Proof.
  unfold update_progress. set (key := progress_key value str d).
  destruct (assoc key (rows st)) as [r|] eqn:Ha.
  - rewrite Ha. destruct r as [ups stray|o f]; [|discriminate].
    intros E; injection E as <-. cbn [rows]. split.
    + intros k Hk. now apply assoc_set_other.
    + exists ups, stray. split; [|now left].
      now apply (assoc_set_same _ _ (ProgressBar ups stray)).
  - cbn [rows table]. rewrite (assoc_app_None _ _ _ Ha). simpl.
    rewrite String.eqb_refl. intros E; injection E as <-. cbn [rows]. split.
    + intros k Hk. rewrite assoc_set_other by assumption.
      destruct (assoc k (rows st)) eqn:Hk'.
      * now apply assoc_app_Some.
      * rewrite (assoc_app_None _ _ _ Hk'). simpl.
        destruct (String.eqb_spec k key); [contradiction|reflexivity].
    + exists [], None. split; [|right; now repeat split].
      apply (assoc_set_same _ _ (ProgressBar [] None)).
      rewrite (assoc_app_None _ _ _ Ha). simpl. now rewrite String.eqb_refl.
Qed.

(** A dictionary that has [total], [progress] and [descr] only feeds the
    progress bar named after [descr]: that row records the update, and no
    other row changes, whatever else the dictionary holds. *)
Theorem dash_progress_touches_one_row (st st' : dash_state value)
    (values : list (string * value)) (t p d : value) :
  assoc "total" values = Some t ->
  assoc "progress" values = Some p ->
  assoc "descr" values = Some d ->
  update_with value str truthy st values = Updated st' ->
  (forall k, k <> progress_key value str d -> assoc k (rows st') = assoc k (rows st))
  /\ exists updates stray,
       assoc (progress_key value str d) (rows st')
       = Some (ProgressBar (updates ++ [(t, p)]) stray).
Proof.
  intros Ht Hp Hd. unfold update_with. rewrite Ht, Hp, Hd. intros E.
  destruct (update_progress_inv st st' t p d E) as (Hother & ups & stray & Hs & _).
  split; [exact Hother|]. now exists ups, stray.
Qed.

(** The progress branch fails exactly when the key of the bar is already the
    key of a plain row, on which [update] is not defined; it never fails on
    the lookup of the bar. *)
Theorem dash_progress_raises_iff_plain (st : dash_state value)
    (values : list (string * value)) (t p d : value) :
  assoc "total" values = Some t ->
  assoc "progress" values = Some p ->
  assoc "descr" values = Some d ->
  (update_with value str truthy st values = Raised AttributeError
   <-> exists o f, assoc (progress_key value str d) (rows st) = Some (Plain o f))
  /\ update_with value str truthy st values <> Raised KeyError.
Proof.
  intros Ht Hp Hd. unfold update_with. rewrite Ht, Hp, Hd.
  unfold update_progress. set (key := progress_key value str d).
  destruct (assoc key (rows st)) as [r|] eqn:Ha.
  - rewrite Ha. destruct r as [ups stray|o f].
    + split; [|discriminate]. split; [discriminate|].
      intros (o & f & E). discriminate E.
    + split; [|discriminate]. split; [|reflexivity]. intros _. now exists o, f.
  - cbn [rows table]. rewrite (assoc_app_None _ _ _ Ha). simpl.
    rewrite String.eqb_refl. split; [|discriminate].
    split; [discriminate|]. intros (o & f & E). discriminate E.
Qed.

Lemma show_item_keeps_format (units : option value) (st : dash_state value)
    (item : string * value) (k : string) (o : value) (f : string) :
  assoc k (rows st) = Some (Plain o f) ->
  exists o', assoc k (rows (show_item value str truthy units st item)) = Some (Plain o' f).
Proof.
  intros Hk. destruct item as [k0 v0].
  destruct (String.eqb_spec k0 k) as [->|Hne].
  - unfold show_item. destruct (reserved k); [now exists o|].
    rewrite Hk. cbn [rows set_object]. exists v0.
    now apply (assoc_set_same _ _ (Plain o f)).
  - exists o. rewrite show_item_other by exact Hne. exact Hk.
Qed.

Lemma update_with_keeps_format (st st' : dash_state value)
    (values : list (string * value)) (k : string) (o : value) (f : string) :
  update_with value str truthy st values = Updated st' ->
  assoc k (rows st) = Some (Plain o f) ->
  exists o', assoc k (rows st') = Some (Plain o' f).
Proof.
  intros E Hk.
  assert (Hfold : forall units items s o0,
            assoc k (rows s) = Some (Plain o0 f) ->
            exists o', assoc k (rows (fold_left (show_item value str truthy units) items s))
                       = Some (Plain o' f)).
  { intros units. induction items as [|i tl IH]; intros s o0 Hs; [now exists o0|].
    simpl. destruct (show_item_keeps_format units s i k o0 f Hs) as (o1 & H1).
    now apply (IH _ o1). }
  unfold update_with in E.
  destruct (assoc "total" values) as [t|];
    [destruct (assoc "progress" values) as [pr|];
     [destruct (assoc "descr" values) as [d|]|]|];
    try (injection E as <-; now apply (Hfold _ _ _ o)).
  destruct (update_progress_inv st st' t pr d E) as (Hother & ups & stray & Hs & Hbefore).
  destruct (String.eqb_spec k (progress_key value str d)) as [->|Hne].
  - rewrite Hk in Hbefore. destruct Hbefore as [H|[H _]]; discriminate H.
  - exists o. now rewrite Hother.
Qed.

(** The format of a plain row, with the units it was created with, never
    changes afterwards: later values replace the object only, and a plain
    row never turns into a progress bar. *)
Theorem dash_row_format_fixed (events : list (dash_event value))
    (st st' : dash_state value) (k : string) (o : value) (f : string) :
  dash_run value str truthy events st = Updated st' ->
  assoc k (rows st) = Some (Plain o f) ->
  exists o', assoc k (rows st') = Some (Plain o' f).
Proof.
  revert st o; induction events as [|e tl IH]; intros st o; simpl.
  - intros E Hk; injection E as <-. now exists o.
  - destruct (dash_step value str truthy st e) as [s1|x] eqn:E1; [|discriminate].
    intros E Hk.
    assert (H1 : exists o1, assoc k (rows s1) = Some (Plain o1 f)).
    { destruct e as [values|values]; simpl in E1.
      - destruct (assoc "silent" values).
        + injection E1 as <-. now exists o.
        + now apply (update_with_keeps_format st s1 values k o f).
      - now apply (update_with_keeps_format st s1 values k o f). }
    destruct H1 as (o1 & H1). now apply (IH s1 o1).
Qed.

End DashRows.

Lemma dash_last_value_shown_witness :
  let truthy := fun s : string => negb (String.eqb s "") in
  let st := {| rows := [("\[train]", ProgressBar [("3", "1")] None);
                         ("loss", Plain "0.5" "{} nats")];
               table := ["\[train]"; "loss"] |}%string in
  let values := [("loss", "0.4"); ("units", "bits")]%string in
  exists st',
    update_with string (fun s => s) truthy st values = Updated st'
    /\ assoc "loss"%string (rows st') = Some (Plain "0.4" "{} nats")%string.
Proof.
  intros truthy st values.
  refine (dash_last_value_shown string (fun s => s) truthy st values
            "loss"%string "0.4"%string _ _ _ _).
  - left. reflexivity.
  - constructor; [intros [H|[]]; discriminate H|].
    constructor; [intros []|constructor].
  - left. reflexivity.
  - reflexivity.
Defined.

Lemma dash_progress_touches_one_row_witness :
  let truthy := fun s : string => negb (String.eqb s "") in
  let st := {| rows := [("loss", Plain "0.5" "{}")]; table := ["loss"] |}%string in
  let st' := {| rows := [("loss", Plain "0.5" "{}");
                         ("\[train]", ProgressBar [("3", "1")] None)];
                table := ["loss"; "\[train]"] |}%string in
  (forall k, k <> progress_key string (fun s => s) "train"%string ->
             assoc k (rows st') = assoc k (rows st))
  /\ exists updates stray,
       assoc (progress_key string (fun s => s) "train"%string) (rows st')
       = Some (ProgressBar (updates ++ [("3", "1")]) stray)%string.
Proof.
  intros truthy st st'.
  exact (dash_progress_touches_one_row string (fun s => s) truthy st st'
           [("total", "3"); ("progress", "1"); ("descr", "train"); ("loss", "9")]%string
           "3"%string "1"%string "train"%string eq_refl eq_refl eq_refl eq_refl).
Defined.

Lemma dash_progress_raises_iff_plain_witness :
  let truthy := fun s : string => negb (String.eqb s "") in
  let st := {| rows := [("\[train]", Plain "7" "{}")]; table := ["\[train]"] |}%string in
  let values := [("total", "3"); ("progress", "1"); ("descr", "train")]%string in
  (update_with string (fun s => s) truthy st values = Raised AttributeError
   <-> exists o f,
         assoc (progress_key string (fun s => s) "train"%string) (rows st) = Some (Plain o f))
  /\ update_with string (fun s => s) truthy st values <> Raised KeyError.
Proof.
  intros truthy st values.
  exact (dash_progress_raises_iff_plain string (fun s => s) truthy st values
           "3"%string "1"%string "train"%string eq_refl eq_refl eq_refl).
Defined.

Lemma dash_row_format_fixed_witness :
  let truthy := fun s : string => negb (String.eqb s "") in
  let st := {| rows := [("loss", Plain "0.5" "{} nats")]; table := ["loss"] |}%string in
  let st' := {| rows := [("loss", Plain "0.4" "{} nats")]; table := ["loss"] |}%string in
  exists o', assoc "loss"%string (rows st') = Some (Plain o' "{} nats"%string).
Proof.
  intros truthy st st'.
  exact (dash_row_format_fixed string (fun s => s) truthy
           [Given [("loss", "0.4"); ("units", "bits")]]%string
           st st' "loss"%string "0.5"%string "{} nats"%string eq_refl eq_refl).
Defined.

(** ** train_rate, further *)

Lemma train_rate_callback_some (sync : option (Z * Z))
    (elems : list (sample * sample)) (r : Q) :
  train_rate_callback sync elems = Some r ->
  total_size elems <> 0
  /\ sync_cost sync + total_delta elems <> 0
  /\ r = (inject_Z (total_size elems)
          / seconds_of_ns (sync_cost sync + total_delta elems))%Q.
Proof.
  callback_sums.
  assert (E : match sync with
              | Some (t0, t1) => 0 + (t1 - t0)
              | None => 0
              end = sync_cost sync).
  { destruct sync as [[t0 t1]|]; simpl; lia. }
  rewrite E.
  destruct (Z.eqb_spec (total_size elems) 0) as [|Hn]; simpl; [discriminate|].
  destruct (Z.eqb_spec (sync_cost sync + total_delta elems) 0) as [|Ht]; simpl;
    [discriminate|].
  intros H; injection H as <-. now repeat split.
Qed.

Lemma total_size_nonneg (elems : list (sample * sample)) :
  Forall (fun p => 0 <= batch_size (fst p) /\ time (fst p) <= time (snd p)) elems ->
  0 <= total_size elems /\ 0 <= total_delta elems.
Proof.
  induction 1 as [|p tl [Hs Ht] _ [IH1 IH2]]; simpl; [lia|].
  fold (total_size tl). fold (total_delta tl). lia.
Qed.

(** When the clock does not run backwards (within each pair and around the
    synchronisation call), a rate that is given is strictly positive: the
    subscriber never gives a zero or a negative rate. *)
Theorem train_rate_positive (sync : option (Z * Z))
    (elems : list (sample * sample)) (r : Q) :
  Forall (fun p => 0 <= batch_size (fst p) /\ time (fst p) <= time (snd p)) elems ->
  0 <= sync_cost sync ->
  train_rate_callback sync elems = Some r ->
  (0 < r)%Q.
Proof.
  intros Hall Hsync Hr.
  destruct (train_rate_callback_some sync elems r Hr) as (Hn & Ht & ->).
  destruct (total_size_nonneg elems Hall) as [Hn0 Ht0].
  assert (Hsec : (0 < seconds_of_ns (sync_cost sync + total_delta elems))%Q).
  { unfold seconds_of_ns. apply Qlt_shift_div_l; [reflexivity|].
    rewrite Qmult_0_l. unfold Qlt; simpl. lia. }
  apply Qlt_shift_div_l; [exact Hsec|].
  rewrite Qmult_0_l. unfold Qlt; simpl. lia.
Qed.

Lemma train_rate_positive_witness :
  let e1 := {| time := 0; batch_size := 32 |} in
  let e2 := {| time := 250000000; batch_size := 32 |} in
  (0 < inject_Z 32 / seconds_of_ns (0 + 250000000))%Q.
Proof.
  intros e1 e2.
  refine (train_rate_positive None [(e1, e2)] _ _ _ eq_refl).
  - constructor; [|constructor]. simpl. split; discriminate.
  - simpl. discriminate.
Defined.

(** ** stop, further *)

Lemma stop_progress_app (st : stop_state) (c : bool) (r i : nat) (out : list stop_output) :
  stop_progress {| called := c; remaining := r; index := i;
                   emitted := emitted st ++ out |}
  = stop_progress st
    ++ flat_map (fun o => match o with Progress j t => [(j, t)] | StopSignal _ => [] end) out.
Proof. unfold stop_progress; simpl. apply flat_map_app. Qed.

Lemma progress_skipped react total fuel st value r :
  remaining st = S r ->
  exists st', deliver react total (S fuel) st value = Some st'
              /\ called st' = called st
              /\ remaining st' = r
              /\ index st' = S (index st)
              /\ stop_progress st' = stop_progress st ++ [(index st, total)].
Proof.
  intros Hr. simpl. rewrite Hr. eexists; split; [reflexivity|].
  repeat split. now rewrite stop_progress_app.
Qed.

Lemma progress_after_called react total fuel st value :
  remaining st = O -> called st = true ->
  exists st', deliver react total (S fuel) st value = Some st'
              /\ called st' = true
              /\ remaining st' = O
              /\ index st' = S (index st)
              /\ stop_progress st' = stop_progress st ++ [(index st, total)].
Proof.
  intros Hr Hc. simpl. rewrite Hr, Hc. eexists; split; [reflexivity|].
  repeat split. now rewrite stop_progress_app.
Qed.

Lemma progress_all_after_called react total fuel values st :
  remaining st = O -> called st = true ->
  exists st',
    fold_left (fun acc v => option_bind acc (fun s => deliver react total (S fuel) s v))
              values (Some st) = Some st'
    /\ called st' = true
    /\ remaining st' = O
    /\ index st' = (index st + List.length values)%nat
    /\ stop_progress st'
       = stop_progress st
         ++ map (fun i => (i, total)) (seq (index st) (List.length values)).
Proof.
  revert st; induction values as [|v vs IH]; intros st Hr Hc.
  - exists st. repeat split; try assumption; simpl; [lia|now rewrite app_nil_r].
  - destruct (progress_after_called react total fuel st v Hr Hc)
      as (st1 & E & Hc1 & Hr1 & Hi1 & Hp1).
    cbn [fold_left option_bind]. rewrite E.
    destruct (IH st1 Hr1 Hc1) as (st2 & E2 & Hc2 & Hr2 & Hi2 & Hp2).
    exists st2. repeat split; try assumption.
    + rewrite Hi2, Hi1. simpl. lia.
    + rewrite Hp2, Hp1, Hi1, <- app_assoc. reflexivity.
Qed.

Lemma progress_fires react total fuel st value :
  remaining st = O -> called st = false ->
  exists st', deliver react total (S (S fuel)) st value = Some st'
              /\ called st' = true
              /\ remaining st' = O
              /\ index st' = (S (index st) + List.length (react value))%nat
              /\ stop_progress st'
                 = stop_progress st
                   ++ map (fun i => (i, total))
                          (seq (index st) (S (List.length (react value)))).
Proof.
  intros Hr Hc. cbn [deliver]. cbn [remaining called index emitted].
  rewrite Hr, Hc.
  match goal with
  | |- context [fold_left _ _ (Some ?s)] => set (st1 := s)
  end.
  destruct (progress_all_after_called react total fuel (react value) st1 eq_refl eq_refl)
    as (st2 & E & Hc2 & Hr2 & Hi2 & Hp2).
  exists st2. repeat split; try assumption.
  rewrite Hp2. subst st1. cbn [index].
  rewrite <- app_assoc, stop_progress_app. simpl. rewrite <- app_assoc. reflexivity.
Qed.

Lemma progress_run_not_called react total fuel values st :
  called st = false ->
  exists st' c,
    fold_left (fun acc v => option_bind acc (fun s => deliver react total (S (S fuel)) s v))
              values (Some st) = Some st'
    /\ c = (List.length values
            + match nth_error values (remaining st) with
              | Some v => List.length (react v)
              | None => 0
              end)%nat
    /\ index st' = (index st + c)%nat
    /\ stop_progress st'
       = stop_progress st ++ map (fun i => (i, total)) (seq (index st) c).
Proof.
  revert st; induction values as [|v vs IH]; intros st Hc.
  - exists st, 0%nat. repeat split.
    + now destruct (remaining st).
    + lia.
    + simpl. now rewrite app_nil_r.
  - cbn [fold_left option_bind].
    destruct (remaining st) as [|r] eqn:Hr.
    + destruct (progress_fires react total fuel st v Hr Hc)
        as (st1 & E & Hc1 & Hr1 & Hi1 & Hp1).
      rewrite E.
      destruct (progress_all_after_called react total (S fuel) vs st1 Hr1 Hc1)
        as (st2 & E2 & _ & _ & Hi2 & Hp2).
      exists st2, (S (List.length (react v)) + List.length vs)%nat.
      split; [exact E2|]. split; [simpl; lia|]. split.
      * rewrite Hi2, Hi1. lia.
      * rewrite Hp2, Hp1, Hi1, <- app_assoc, <- map_app, seq_app.
        replace (index st + S (List.length (react v)))%nat
          with (S (index st) + List.length (react v))%nat by lia.
        reflexivity.
    + destruct (progress_skipped react total (S fuel) st v r Hr)
        as (st1 & E & Hc1 & Hr1 & Hi1 & Hp1).
      rewrite E.
      destruct (IH st1) as (st2 & c & E2 & Hcount & Hi2 & Hp2); [congruence|].
      exists st2, (S c). split; [exact E2|]. split; [|split].
      * rewrite Hcount, Hr1. simpl. reflexivity.
      * rewrite Hi2, Hi1. lia.
      * rewrite Hp2, Hp1, Hi1, <- app_assoc. reflexivity.
Qed.

(** For a positive parameter [n] every [train_rate] event is answered by one
    progress event, the events given by the host while [ov.stop] runs
    included; the indices count up from zero without a gap and the total is
    [n], so the progress reaches [n] with the event that stops the run and
    passes it afterwards. *)
Theorem stop_progress_every_event (react : Q -> list Q) (n fuel : nat)
    (values : list Q) :
  (0 < n)%nat -> (2 <= fuel)%nat ->
  exists st, stop react n fuel values = Some st
             /\ index st
                = (List.length values
                   + match nth_error values n with
                     | Some v => List.length (react v)
                     | None => 0
                     end)%nat
             /\ stop_progress st = map (fun i => (i, n)) (seq 0 (index st)).
Proof.
  intros Hn Hfuel.
  destruct n as [|n]; [lia|].
  destruct fuel as [|[|fuel]]; try lia.
  unfold stop.
  destruct (progress_run_not_called react (S n) fuel values (stop_init (S n)) eq_refl)
    as (st & c & E & Hc & Hi & Hp).
  exists st. split; [exact E|]. simpl in Hi, Hp, Hc. split.
  - rewrite Hi, Hc. reflexivity.
  - rewrite Hp, Hi. reflexivity.
Qed.

Lemma stop_progress_every_event_witness :
  exists st, stop (fun v => [v]) 2 2 [1; 2; 3; 4]%Q = Some st
             /\ index st = (4 + 1)%nat
             /\ stop_progress st = map (fun i => (i, 2%nat)) (seq 0 (index st)).
Proof. apply (stop_progress_every_event (fun v => [v]) 2 2 [1; 2; 3; 4]%Q); lia. Defined.

(** ** loading_rate and compute_rate, further *)

(** The two [_timing] generators differ on tuple batches only: on any other
    exit data they return the same rate, the same [None] or raise the same
    exception. *)
Theorem timings_agree_unless_tuple (s : span) :
  (forall items, dict_get "batch" (exit_data s) <> Some (PyTuple items)) ->
  compute_timing s = loading_timing s.
Proof.
  intros H. unfold compute_timing, loading_timing.
  destruct (dict_get "batch" (exit_data s)) as [data|]; [|reflexivity].
  destruct data; try reflexivity.
  exfalso. now apply (H items).
Qed.

Lemma timings_agree_unless_tuple_witness :
  let s := {| t_enter := 0; t_exit := 1000;
              exit_data := [("batch"%string, PyList [PySized 16; PySized 16])] |} in
  compute_timing s = loading_timing s.
Proof.
  intros s. apply (timings_agree_unless_tuple s).
  intros items H. discriminate H.
Defined.

Lemma timing_with_batch_not_none (unwrap : pyval -> bool) (data : pyval) (seconds : Q) :
  (data' <- (if unwrap data then py_getitem0 data else Ok data) ;;
   n <- py_len data' ;;
   rate <- py_truediv n seconds ;;
   Ok (Some rate)) <> Ok None.
Proof.
  destruct (if unwrap data then py_getitem0 data else Ok data) as [p|e];
    cbn [bind]; [|discriminate].
  destruct (py_len p) as [n|e]; cbn [bind]; [|discriminate].
  unfold py_truediv. destruct (Qeq_bool seconds 0); cbn [bind]; discriminate.
Qed.

(** [_timing] returns [None] exactly for the spans whose exit data has no
    batch: with a batch it returns a rate or raises. *)
Theorem timing_none_iff_no_batch (s : span) :
  (loading_timing s = Ok None <-> has_batch s = false)
  /\ (compute_timing s = Ok None <-> has_batch s = false).
Proof.
  split; (split; [|intros H; now apply timing_without_batch]).
  - unfold loading_timing, has_batch.
    destruct (dict_get "batch" (exit_data s)) as [data|]; [|reflexivity].
    intros H. exfalso. revert H. apply timing_with_batch_not_none.
  - unfold compute_timing, has_batch.
    destruct (dict_get "batch" (exit_data s)) as [data|]; [|reflexivity].
    intros H. exfalso. revert H. apply timing_with_batch_not_none.
Qed.

(** A span whose two clock readings are equal is not skipped: once the
    length of its batch is known, the division raises, in both
    instruments. *)
Theorem zero_elapsed_span_raises (s : span) (data payload : pyval) (n : Z) :
  dict_get "batch" (exit_data s) = Some data ->
  (if is_list_or_tuple data then py_getitem0 data else Ok data) = Ok payload ->
  py_len payload = Ok n ->
  t_exit s = t_enter s ->
  loading_timing s = Raise ZeroDivisionError
  /\ compute_timing s = Raise ZeroDivisionError.
Proof.
  intros Hd Hp Hn Ht.
  assert (Hz : forall m, py_truediv m (seconds_of_ns (t_exit s - t_enter s))
                         = Raise ZeroDivisionError).
  { intros m. unfold py_truediv. rewrite seconds_of_ns_zero.
    replace (t_exit s - t_enter s) with 0 by lia. reflexivity. }
  split.
  - unfold loading_timing. rewrite Hd, Hp. cbn [bind]. rewrite Hn. cbn [bind].
    now rewrite Hz.
  - unfold compute_timing. rewrite Hd.
    destruct data as [|items|items| |]; cbn [is_list is_list_or_tuple] in *.
    + injection Hp as <-. discriminate Hn.
    + rewrite Hp. cbn [bind]. rewrite Hn. cbn [bind]. now rewrite Hz.
    + cbn [bind py_len]. now rewrite Hz.
    + injection Hp as <-. cbn [bind]. rewrite Hn. cbn [bind]. now rewrite Hz.
    + injection Hp as <-. discriminate Hn.
Qed.

Lemma zero_elapsed_span_raises_witness :
  let s := {| t_enter := 77; t_exit := 77;
              exit_data := [("batch"%string, PyTuple [PySized 8; PySized 8])] |} in
  loading_timing s = Raise ZeroDivisionError
  /\ compute_timing s = Raise ZeroDivisionError.
Proof.
  intros s.
  exact (zero_elapsed_span_raises s (PyTuple [PySized 8; PySized 8]) (PySized 8) 8
           eq_refl eq_refl eq_refl eq_refl).
Defined.

Lemma throttle_from_length {A : Type} (d : Z) (xs : list (Z * A)) (last_pass : option Z) :
  (List.length (throttle_from d last_pass xs) <= List.length xs)%nat.
Proof.
  revert last_pass; induction xs as [|[now x] tl IH]; intros last_pass; simpl; [lia|].
  destruct last_pass as [t0|].
  - destruct (d <=? now - t0); simpl.
    + specialize (IH (Some now)). lia.
    + specialize (IH (Some t0)). lia.
  - specialize (IH (Some now)). simpl. lia.
Qed.

Lemma smooth_length (items : list (Z * Q)) :
  (List.length (smooth items) <= List.length items)%nat.
Proof.
  unfold smooth, throttle.
  etransitivity; [apply throttle_from_length|].
  rewrite length_combine, average_scan_length, !length_map. lia.
Qed.

Lemma not_none_count (spans : list span) :
  (List.length (not_none (fst (wmap loading_timing spans)))
   <= List.length (filter has_batch spans))%nat.
Proof.
  induction spans as [|s tl IH]; [simpl; lia|].
  rewrite wmap_cons. cbn [filter].
  destruct (loading_timing s) as [[q|]|e] eqn:E; cbn [fst not_none].
  - destruct (has_batch s) eqn:Hb.
    + simpl. lia.
    + destruct (timing_without_batch s Hb) as [E' _]. congruence.
  - destruct (has_batch s); simpl; lia.
  - simpl. lia.
Qed.

(** [loading_rate] gives at most one rate per span that had a batch. *)
Theorem loading_rate_count (spans : list span) :
  (List.length (fst (loading_rate_pipeline spans))
   <= List.length (filter has_batch spans))%nat.
Proof.
  unfold loading_rate_pipeline, filter_not_none. cbn [fst].
  etransitivity; [apply smooth_length|apply not_none_count].
Qed.

(** The [loader] subscriber is never silently inert: when it returns, no
    probe is installed exactly when an error line was written; it raises
    only for a loader that is not iterable and whose [__iter__] is not a
    generator function. *)
Theorem loading_rate_subscribe_cases (l : loader) :
  match loading_rate_subscribe l with
  | Ok sub => installed sub = None <-> stderr sub <> []
  | Raise e =>
      e = TypeError /\ iter_is_generator_function l = false /\ type_of_iter l = None
  end.
Proof.
  unfold loading_rate_subscribe.
  destruct (iter_is_generator_function l); cbn [installed stderr].
  - split; [discriminate|]. intros H. now contradiction H.
  - destruct (type_of_iter l) as [typ|]; [|now repeat split].
    destruct (has_next typ); cbn [installed stderr].
    + split; [discriminate|]. intros H. now contradiction H.
    + split; [discriminate|reflexivity].
Qed.

(** ** GPUMonitor, further *)

Lemma finished_stays (w : world) (schedule : list action) (m : monitor) :
  loc m = Exited \/ loc m = Died ->
  loc (execute w schedule m) = loc m.
Proof.
  revert m; induction schedule as [|a s IH]; intros m H; [reflexivity|].
  cbn [execute fold_left]. fold (execute w s (act w m a)).
  assert (E : loc (act w m a) = loc m).
  { destruct a; cbn [act]; [|reflexivity].
    unfold run_step. destruct H as [H|H]; rewrite H; exact H. }
  rewrite IH; [exact E|now rewrite E].
Qed.

Lemma stopped_step (w : world) (m : monitor) :
  stopped m = true ->
  stopped (run_step w m) = true
  /\ match loc m with
     | AtPoll => loc (run_step w m) = AtSleep \/ loc (run_step w m) = Died
     | AtSleep => loc (run_step w m) = AtCheck
     | AtCheck => loc (run_step w m) = Exited
     | Exited => loc (run_step w m) = Exited
     | Died => loc (run_step w m) = Died
     end.
Proof.
  intros Hs. unfold run_step.
  destruct (loc m) eqn:Hl; cbn [stopped loc]; rewrite ?Hs; try (now split).
  destruct (telemetry w (polls m)); cbn [stopped loc]; split; auto.
Qed.

(** Once the flag is set, the thread leaves [run] within three of its own
    steps, wherever it stood, and stays out whatever happens next. *)
Theorem stopped_thread_exits (w : world) (m : monitor) (schedule : list action) :
  stopped m = true ->
  let m' := execute w (Tick :: Tick :: Tick :: schedule) m in
  loc m' = Exited \/ loc m' = Died.
Proof.
  intros Hs m'. subst m'.
  change (execute w (Tick :: Tick :: Tick :: schedule) m)
    with (execute w schedule (run_step w (run_step w (run_step w m)))).
  destruct (stopped_step w m Hs) as [Hs1 H1].
  destruct (stopped_step w (run_step w m) Hs1) as [Hs2 H2].
  destruct (stopped_step w (run_step w (run_step w m)) Hs2) as [_ H3].
  assert (F : loc (run_step w (run_step w (run_step w m))) = Exited
              \/ loc (run_step w (run_step w (run_step w m))) = Died).
  { destruct (loc m).
    - rewrite H1 in H2. rewrite H2 in H3. now left.
    - destruct H1 as [H1|H1]; rewrite H1 in H2.
      + rewrite H2 in H3. now left.
      + rewrite H2 in H3. now right.
    - rewrite H1 in H2. rewrite H2 in H3. now left.
    - rewrite H1 in H2. rewrite H2 in H3. now left.
    - rewrite H1 in H2. rewrite H2 in H3. now right. }
  rewrite (finished_stays w schedule _ F). exact F.
Qed.

Lemma stopped_thread_exits_witness :
  let w := {| telemetry := fun _ => Gpus [1%nat]; poll_ns := fun _ => 0%N |} in
  let m := monitor_stop (execute w [Tick] (GPUMonitor 100)) in
  let m' := execute w [Tick; Tick; Tick; Tick; CallStop] m in
  loc m' = Exited \/ loc m' = Died.
Proof.
  intros w m.
  exact (stopped_thread_exits w m [Tick; CallStop] eq_refl).
Defined.

(** A [stop()] that arrives while the thread is about to check the flag or
    is asleep takes effect at once: no further sample is published. *)
Theorem stop_while_idle (w : world) (m : monitor) (schedule : list action) :
  loc m = AtCheck \/ loc m = AtSleep ->
  published (execute w (CallStop :: schedule) m) = published m.
Proof.
  intros Hl. cbn [execute fold_left act].
  change (fold_left (act w) schedule (monitor_stop m))
    with (execute w schedule (monitor_stop m)).
  set (P := fun m' : monitor =>
    stopped m' = true
    /\ (loc m' = AtCheck \/ loc m' = AtSleep \/ loc m' = Exited)
    /\ published m' = published m).
  assert (HP : P (execute w schedule (monitor_stop m))).
  { apply execute_invariant.
    - intros m0 [|] (Hs & Hloc & Hp); cbn [act]; unfold P.
      + rewrite published_step. unfold run_step.
        destruct Hloc as [H|[H|H]]; rewrite H; cbn [stopped loc]; rewrite ?Hs;
          repeat split; auto.
      + rewrite published_stop. cbn [monitor_stop stopped loc]. now repeat split.
    - unfold P. rewrite published_stop. cbn [monitor_stop stopped loc].
      repeat split. destruct Hl as [H|H]; auto. }
  apply HP.
Qed.

Lemma stop_while_idle_witness :
  let w := {| telemetry := fun _ => Gpus [1%nat]; poll_ns := fun _ => 0%N |} in
  published (execute w (CallStop :: repeat Tick 9) (GPUMonitor 100))
  = published (GPUMonitor 100).
Proof.
  intros w.
  apply (stop_while_idle w (GPUMonitor 100) (repeat Tick 9)). left. reflexivity.
Defined.

Lemma readings_S (w : world) (n : nat) :
  readings w (S n)
  = readings w n ++ match telemetry w n with Gpus d => [d] | PollRaises => [] end.
Proof.
  unfold readings. rewrite seq_S, flat_map_app. simpl. now rewrite app_nil_r.
Qed.

(** The bus receives the readings of the telemetry calls in the order of
    the calls, each once: what was published is, at any time and in any
    interleaving, the list of the readings of the calls made so far. *)
Theorem published_in_poll_order (w : world) (d : Z) (schedule : list action) :
  map snd (published (execute w schedule (GPUMonitor d)))
  = readings w (polls (execute w schedule (GPUMonitor d))).
Proof.
  apply (execute_invariant w
           (fun m => map snd (published m) = readings w (polls m))).
  - intros m [|] H; cbn [act].
    + rewrite published_step. unfold run_step.
      destruct (loc m); cbn [polls]; try exact H.
      destruct (telemetry w (polls m)) eqn:Ht; cbn [polls];
        rewrite readings_S, Ht.
      * rewrite map_app, H. reflexivity.
      * now rewrite app_nil_r.
    + rewrite published_stop. exact H.
  - reflexivity.
Qed.

Lemma three_ticks (w : world) (m : monitor) (g : gpudata) :
  loc m = AtCheck -> stopped m = false -> telemetry w (polls m) = Gpus g ->
  let m' := execute w [Tick; Tick; Tick] m in
  loc m' = AtCheck /\ stopped m' = false /\ polls m' = S (polls m)
  /\ published m' = published m ++ [(clock m + Z.of_N (poll_ns w (polls m)), g)].
Proof.
  destruct m as [st dl lc pl ck tr]. cbn [loc stopped polls clock].
  intros -> -> Ht. unfold execute, published. cbn [fold_left act].
  unfold run_step.
  cbn [loc stopped delay polls clock trace]. rewrite Ht.
  cbn [loc stopped delay polls clock trace].
  repeat split. rewrite flat_map_app. reflexivity.
Qed.

Lemma execute_app (w : world) (s1 s2 : list action) (m : monitor) :
  execute w (s1 ++ s2) m = execute w s2 (execute w s1 m).
Proof. unfold execute. apply fold_left_app. Qed.

Lemma repeat_three_more (k : nat) :
  repeat Tick (3 * S k) = repeat Tick (3 * k) ++ [Tick; Tick; Tick].
Proof.
  replace (3 * S k)%nat with (3 * k + 3)%nat by lia.
  rewrite repeat_app. reflexivity.
Qed.

(** Left alone with a telemetry that answers, the thread publishes one
    sample per turn of its loop: after [k] turns (three steps each) it has
    made [k] calls, published [k] samples and is back at the flag check. *)
Theorem healthy_run_publishes_every_poll (w : world) (d : Z) (k : nat) :
  (forall j, (j < k)%nat -> telemetry w j <> PollRaises) ->
  let m := execute w (repeat Tick (3 * k)) (GPUMonitor d) in
  polls m = k /\ loc m = AtCheck /\ List.length (published m) = k.
Proof.
  intros H. cbv zeta.
  assert (G : polls (execute w (repeat Tick (3 * k)) (GPUMonitor d)) = k
              /\ loc (execute w (repeat Tick (3 * k)) (GPUMonitor d)) = AtCheck
              /\ stopped (execute w (repeat Tick (3 * k)) (GPUMonitor d)) = false
              /\ List.length (published (execute w (repeat Tick (3 * k)) (GPUMonitor d))) = k).
  { induction k as [|k IH].
    - simpl. repeat split.
    - destruct IH as (Hp & Hl & Hs & Hn); [intros j Hj; apply H; lia|].
      rewrite repeat_three_more, execute_app.
      set (m := execute w (repeat Tick (3 * k)) (GPUMonitor d)) in *.
      destruct (telemetry w (polls m)) as [g|] eqn:Ht.
      + destruct (three_ticks w m g Hl Hs Ht) as (Hl' & Hs' & Hp' & Hpub).
        rewrite Hl', Hs', Hp', Hpub, length_app, Hp, Hn. simpl.
        repeat split; lia.
      + exfalso. apply (H (polls m)); [lia|exact Ht]. }
  destruct G as (Hp & Hl & _ & Hn). now repeat split.
Qed.

Lemma healthy_run_publishes_every_poll_witness :
  let w := {| telemetry := fun j => if (j <? 4)%nat then Gpus [j] else PollRaises;
              poll_ns := fun _ => 3%N |} in
  let m := execute w (repeat Tick (3 * 4)) (GPUMonitor 100) in
  polls m = 4%nat /\ loc m = AtCheck /\ List.length (published m) = 4%nat.
Proof.
  intros w.
  apply (healthy_run_publishes_every_poll w 100 4).
  intros j Hj. simpl.
  destruct (Nat.ltb_spec j 4) as [_|Hge]; [discriminate|lia].
Defined.

(** ** verify and profile, further *)

(** A channel that carried a single loss fails [verify.loss_decreases]:
    that loss is both the first and the last. *)
Theorem verify_single_loss (x : Q) :
  verify_losses [x]
  = [("verify.loss_decreases"%string, false);
     ("verify.loss_below_threshold"%string, Qltb x 1)].
Proof.
  unfold verify_losses. simpl.
  assert (E : Qltb x x = false).
  { unfold Qltb. apply negb_false_iff, Qle_bool_iff, Qle_refl. }
  now rewrite E.
Qed.

(** Any profiler name other than the two known ones is refused with a
    [NotImplementedError] that quotes the name. *)
Theorem profile_unknown_name_raises (name : string) :
  name <> "torch"%string -> name <> "deepspeed"%string ->
  profile (Some name) = Raise (NotImplementedError ("Unknown profiler: " ++ name)).
Proof.
  intros Ht Hd. unfold profile.
  destruct (String.eqb_spec name "torch"); [contradiction|].
  destruct (String.eqb_spec name "deepspeed"); [contradiction|reflexivity].
Qed.

Lemma profile_unknown_name_raises_witness :
  profile (Some "tensorboard"%string)
  = Raise (NotImplementedError "Unknown profiler: tensorboard").
Proof.
  apply (profile_unknown_name_raises "tensorboard"); discriminate.
Defined.

Lemma profile_method_only_when_named_witness :
  (Some "deepspeed"%string = Some "torch"%string
   /\ profile_with_deepspeed = profile_with_torch_profiler)
  \/ (Some "deepspeed"%string = Some "deepspeed"%string
      /\ profile_with_deepspeed = profile_with_deepspeed).
Proof.
  exact (profile_method_only_when_named (Some "deepspeed"%string)
           profile_with_deepspeed eq_refl).
Defined.

Lemma assoc_Some_In {V : Type} (k : string) (v : V) (d : list (string * V)) :
  assoc k d = Some v -> In k (map fst d).
Proof.
  intros H. destruct (in_dec string_dec k (map fst d)) as [Hin|Hnot]; [exact Hin|].
  apply assoc_None_iff in Hnot. congruence.
Qed.

Section DashBars.

Variable value : Type.
Variable str : value -> string.
Variable truthy : value -> bool.

Lemma show_item_bars (units : option value) (st : dash_state value)
    (item : string * value) :
  bars_under_progress_keys st ->
  bars_under_progress_keys (show_item value str truthy units st item).
Proof.
  intros H k ups stray Hk. destruct item as [k0 v0].
  destruct (String.eqb_spec k0 k) as [->|Hne].
  - destruct (reserved k) eqn:Hres.
    + unfold show_item in Hk. rewrite Hres in Hk. now apply (H k ups stray).
    + rewrite (show_item_sets value str truthy units st k v0 Hres) in Hk.
      destruct (assoc k (rows st)) as [[ups0 stray0|o f]|] eqn:Ha.
      * now apply (H k ups0 stray0).
      * discriminate Hk.
      * destruct units as [u|]; [destruct (truthy u)|]; discriminate Hk.
  - rewrite show_item_other in Hk by exact Hne. now apply (H k ups stray).
Qed.

Lemma update_with_bars (st st' : dash_state value) (values : list (string * value)) :
  bars_under_progress_keys st ->
  update_with value str truthy st values = Updated st' ->
  bars_under_progress_keys st'.
Proof.
  intros H. unfold update_with.
  assert (Hfold : forall items s, bars_under_progress_keys s ->
            bars_under_progress_keys
              (fold_left (show_item value str truthy (assoc "units" values)) items s)).
  { induction items as [|i tl IH]; intros s Hs; [exact Hs|].
    cbn [fold_left]. apply IH, show_item_bars, Hs. }
  destruct (assoc "total" values) as [t|];
    [destruct (assoc "progress" values) as [pr|];
     [destruct (assoc "descr" values) as [d|]|]|];
    try (intros E; injection E as <-; now apply Hfold).
  intros E k ups stray Hk.
  destruct (update_progress_inv value str st st' t pr d E) as (Hother & _).
  destruct (String.eqb_spec k (progress_key value str d)) as [->|Hne].
  - unfold progress_key. cbn. now destruct (str d ++ "]")%string.
  - rewrite (Hother k Hne) in Hk. now apply (H k ups stray).
Qed.

Lemma dash_run_reached (events : list (dash_event value)) (s s' : dash_state value) :
  table_consistent s -> bars_under_progress_keys s ->
  dash_run value str truthy events s = Updated s' ->
  table_consistent s' /\ bars_under_progress_keys s'.
Proof.
  revert s; induction events as [|e tl IH]; intros s Hc Hb; simpl.
  - intros E; injection E as <-. now split.
  - destruct (dash_step value str truthy s e) as [s1|x] eqn:E1; [|discriminate].
    apply IH.
    + destruct e as [values|values]; simpl in E1.
      * destruct (assoc "silent" values).
        -- injection E1 as <-. exact Hc.
        -- now apply (update_with_consistent value str truthy s s1 values).
      * now apply (update_with_consistent value str truthy s s1 values).
    + destruct e as [values|values]; simpl in E1.
      * destruct (assoc "silent" values).
        -- injection E1 as <-. exact Hb.
        -- now apply (update_with_bars s s1 values).
      * now apply (update_with_bars s s1 values).
Qed.

End DashBars.


